(** * Apocalypse Radio playground: the synthesis core of the clip generators

    A shallow embedding of [generate_bass.py], [generate_drums.py] and
    [generate_synths.py] (and of the one string operation of
    [submit_synths.py]), and the properties their specification states.

    Number model.  Times (seconds, beats, sample positions handed to [int])
    are rationals [Q], so sample counts and offsets evaluate.  Sample values,
    frequencies, levels and volumes are real numbers [R]: numpy's float64
    arithmetic is read as exact real arithmetic, with [exp], [sin], [ln] and
    [PI] of the standard library for [np.exp], [np.sin], [np.log] and [np.pi].
    Rounding of floating-point operations is not modelled.

    Effects.  A numpy call that raises is a [Raise] result; numpy's global
    random generator is an explicit stream of pending draws threaded through
    the drum voices; an array mutated in place is returned as the new array. *)

From Stdlib Require Import Reals QArith Qround Qreals ZArith List Lia Lra Psatz Bool.
From Stdlib Require Ascii.
Import ListNotations.

Set Implicit Arguments.

(** ** Python and numpy primitives used by the three generators *)

Module Py.

(** The one exception the modelled code can meet: numpy's [ValueError]
    (negative sample count, operands that do not broadcast, reduction of an
    empty array). *)
Inductive exn : Set := ValueError.

Inductive result (A : Type) : Type :=
| Ok (a : A)
| Raise (e : exn).

Arguments Ok {A} a.
Arguments Raise {A} e.

Definition bind {A B : Type} (r : result A) (k : A -> result B) : result B :=
  match r with
  | Ok a => k a
  | Raise e => Raise e
  end.

Definition is_ok {A : Type} (r : result A) : bool :=
  match r with Ok _ => true | Raise _ => false end.

(** [int(x)] on a float: truncation toward zero. *)
Definition py_int (x : Q) : Z := Z.quot (Qnum x) (Zpos (Qden x)).

(** Python's built-in [round(x)]: to the nearest integer, ties to even.
    The code never calls it; the specification's formulas do. *)
Definition py_round (x : Q) : Z :=
  let f := Qfloor x in
  match Qcompare (x - inject_Z f) (1 # 2) with
  | Lt => f
  | Gt => (f + 1)%Z
  | Eq => if Z.even f then f else (f + 1)%Z
  end.

(** [a // b] on ints. *)
Definition py_floordiv (a b : Z) : Z := (a / b)%Z.

(** [np.floor] and the float [%] with a positive divisor 1.0. *)
Definition np_floor (x : R) : R := IZR (Zfloor x).
Definition np_mod1 (x : R) : R := (x - IZR (Zfloor x))%R.

(** [np.sign]. *)
Definition np_sign (x : R) : R :=
  if Rlt_dec 0 x then 1%R else if Rlt_dec x 0 then (-1)%R else 0%R.

(** [np.zeros(n)]: a negative dimension raises. *)
Definition np_zeros (n : Z) : result (list R) :=
  if (n <? 0)%Z then Raise ValueError else Ok (repeat 0%R (Z.to_nat n)).

(** [np.arange(n)] as floats: empty for [n <= 0]. *)
Definition np_arange (n : Z) : list R := map INR (seq 0 (Z.to_nat n)).

(** [np.linspace(start, stop, num)] with the default [endpoint=True]:
    [num - 1] equal steps, the last sample set to [stop]; one sample is
    [start]; none is the empty array. *)
Definition linspace (start stop : R) (num : nat) : list R :=
  match num with
  | O => []
  | S O => [start]
  | S (S k as div) =>
      map (fun i => INR i * ((stop - start) / INR div) + start)%R (seq 0 div)
        ++ [stop]
  end.

Definition np_linspace (start stop : R) (num : Z) : result (list R) :=
  if (num <? 0)%Z then Raise ValueError
  else Ok (linspace start stop (Z.to_nat num)).

(** [np.linspace(start, stop, num, endpoint=False)]: [num] steps of
    [(stop - start) / num], [stop] itself left out. *)
Definition linspace_open (start stop : R) (num : nat) : list R :=
  map (fun i => INR i * ((stop - start) / INR num) + start)%R (seq 0 num).

Definition np_linspace_open (start stop : R) (num : Z) : result (list R) :=
  if (num <? 0)%Z then Raise ValueError
  else Ok (linspace_open start stop (Z.to_nat num)).

(** A slice bound [i] of a sequence of length [len], as Python resolves it:
    a negative bound counts from the end, and the result is clipped to
    [0 .. len]. *)
Definition slice_index (len : nat) (i : Z) : nat :=
  if (i <? 0)%Z then Z.to_nat (Z.of_nat len + i)
  else Nat.min (Z.to_nat i) len.

Definition slice_lo (len : nat) (lo : option Z) : nat :=
  match lo with Some i => slice_index len i | None => O end.

Definition slice_hi (len : nat) (hi : option Z) : nat :=
  match hi with Some i => slice_index len i | None => len end.

(** [l[lo:hi]]. *)
Definition py_slice {A : Type} (l : list A) (lo hi : option Z) : list A :=
  let a := slice_lo (length l) lo in
  let b := slice_hi (length l) hi in
  firstn (b - a) (skipn a l).

(** Broadcasting a one-dimensional operand onto a slice of [m] elements:
    the lengths agree, or the operand has exactly one element. *)
Definition broadcast_to (vals : list R) (m : nat) : result (list R) :=
  if (length vals =? m)%nat then Ok vals
  else if (length vals =? 1)%nat then Ok (repeat (hd 0%R vals) m)
  else Raise ValueError.

(** [l[lo:hi] = vals] and [l[lo:hi] += vals] on a numpy array: the slice
    selects [m] elements from [a] on, [vals] is broadcast onto them. *)
Definition slice_update (f : R -> R -> R) (l : list R) (lo hi : option Z)
           (vals : list R) : result (list R) :=
  let a := slice_lo (length l) lo in
  let b := slice_hi (length l) hi in
  let m := (b - a)%nat in
  bind (broadcast_to vals m) (fun vs =>
  Ok (firstn a l ++ map (fun p => f (fst p) (snd p)) (combine (firstn m (skipn a l)) vs)
        ++ skipn (a + m) l)).

Definition slice_assign := slice_update (fun _ v => v).
Definition slice_iadd := slice_update Rplus.

(** [l[lo:hi] = c] for a scalar [c]. *)
Definition slice_fill (l : list R) (lo hi : option Z) (c : R) : result (list R) :=
  slice_assign l lo hi [c].

(** [np.max(np.abs(a))]: the reduction has no identity, an empty array
    raises. *)
Definition np_max_abs (a : list R) : result R :=
  match a with
  | [] => Raise ValueError
  | x :: xs => Ok (fold_left Rmax (map Rabs xs) (Rabs x))
  end.

(** [astype(np.int16)] of a float: truncation toward zero, then the low
    sixteen bits read as a signed number. *)
Definition trunc (x : R) : Z :=
  if Rle_dec 0 x then Zfloor x else (- Zfloor (- x))%Z.

Definition int16 (x : R) : Z :=
  ((trunc x + 32768) mod 65536 - 32768)%Z.

End Py.

Import Py.

Notation "x <- e ;; k" := (bind e (fun x => k))
  (at level 61, e at next level, right associativity).

(** The module constants, the same in the three files. *)
Definition SAMPLE_RATE : Q := 44100.
Definition BPM : Q := 120.
Definition BEAT_DURATION : Q := 60 / BPM.

(** Element-wise array arithmetic on operands of equal length. *)
Definition vmap2 (f : R -> R -> R) (a b : list R) : list R :=
  map (fun p => f (fst p) (snd p)) (combine a b).
Definition vmul : list R -> list R -> list R := vmap2 Rmult.
Definition vadd : list R -> list R -> list R := vmap2 Rplus.
(** [a * c] for an array [a] and a scalar [c]. *)
Definition vscale (a : list R) (c : R) : list R := map (fun x => x * c)%R a.

(** [a += b] on whole arrays: [b] is broadcast onto [a]. *)
Definition array_iadd (a b : list R) : result (list R) :=
  vs <- broadcast_to b (length a) ;; Ok (vadd a vs).

(** [a * b] on whole arrays, with numpy's broadcasting of a one-element
    operand. *)
Definition array_mul (a b : list R) : result (list R) :=
  if (length a =? length b)%nat then Ok (vmul a b)
  else if (length b =? 1)%nat then Ok (vmul a (repeat (hd 0%R b) (length a)))
  else if (length a =? 1)%nat then Ok (vmul (repeat (hd 0%R a) (length b)) b)
  else Raise ValueError.

(** A [for] loop that updates one variable and may raise. *)
Fixpoint for_each {A B : Type} (l : list A) (body : B -> A -> result B) (b : B)
  : result B :=
  match l with
  | [] => Ok b
  | x :: xs => b' <- body b x ;; for_each xs body b'
  end.

(** [range(n)]. *)
Definition range (n : Z) : list Z := map Z.of_nat (seq 0 (Z.to_nat n)).

(** ** generate_drums.py *)

Module Drums.

Local Open Scope R_scope.

(** numpy's global generator, as the sequence of standard normal draws it
    will hand out next.  [np.random.randn(n)] takes the first [n]. *)
Definition rng : Type := nat -> R.

Definition randn (n : nat) (g : rng) : list R * rng :=
  (map g (seq 0 n), fun k => g (n + k)%nat).

(** A computation that may draw noise and may raise. *)
Definition M (A : Type) : Type := rng -> result (A * rng).

Definition ret {A : Type} (a : A) : M A := fun g => Ok (a, g).

Definition lift {A : Type} (r : result A) : M A :=
  fun g => a <- r ;; Ok (a, g).

Definition mbind {A B : Type} (m : M A) (k : A -> M B) : M B :=
  fun g => p <- m g ;; k (fst p) (snd p).

(** What a caller sees of a run: the value returned, or the exception. *)
Definition output {A : Type} (r : result (A * rng)) : result A :=
  p <- r ;; Ok (fst p).

(** [np.cumsum]. *)
Fixpoint cumsum_from (acc : R) (l : list R) : list R :=
  match l with
  | [] => []
  | x :: xs => (acc + x) :: cumsum_from (acc + x) xs
  end.
Definition cumsum : list R -> list R := cumsum_from 0.

(** [np.diff(a, prepend=0)]. *)
Fixpoint diff_from (prev : R) (l : list R) : list R :=
  match l with
  | [] => []
  | x :: xs => (x - prev) :: diff_from x xs
  end.
Definition diff_prepend0 : list R -> list R := diff_from 0.

(** The sample times of a voice: [np.linspace(0, duration,
    int(sample_rate * duration), endpoint=False)]. *)
Definition times (duration sample_rate : Q) : result (list R) :=
  np_linspace_open 0 (Q2R duration) (py_int (sample_rate * duration)).

Definition generate_kick (duration sample_rate : Q) : M (list R) :=
  lift (
    t <- times duration sample_rate ;;
    let freq := map (fun ti => 150 * exp (- ti * ln (150 / 50) / Q2R duration)) t in
    let phase := map (fun c => 2 * PI * c / Q2R sample_rate) (cumsum freq) in
    let envelope := map (fun ti => exp (- ti * 30)) t in
    let kick := vmul (map sin phase) envelope in
    let click_len := py_int (0.005 * sample_rate) in
    let click := repeat 0 (length kick) in
    let t_click := py_slice t None (Some click_len) in
    click <- slice_assign click None (Some click_len)
               (vmul (map (fun ti => sin (2 * PI * 1000 * ti)) t_click)
                     (map (fun ti => exp (- ti * 200)) t_click)) ;;
    Ok (vadd (vscale kick 0.85) (vscale click 0.15))).

Definition generate_snare (duration sample_rate : Q) : M (list R) :=
  mbind (lift (times duration sample_rate)) (fun t =>
  fun g =>
    let (noise, g') := randn (length t) g in
    let noise_env := map (fun ti => exp (- ti * 40)) t in
    let tone := vmul (map (fun ti => sin (2 * PI * 200 * ti)) t)
                     (map (fun ti => exp (- ti * 50)) t) in
    Ok (vadd (vscale (vmul noise noise_env) 0.6) (vscale tone 0.4), g')).

(** The two hi-hats differ in the decay rate only: 100 closed, 20 open. *)
Definition hihat (decay : R) (duration sample_rate : Q) : M (list R) :=
  mbind (lift (times duration sample_rate)) (fun t =>
  fun g =>
    let (noise, g') := randn (length t) g in
    let hp_noise := diff_prepend0 noise in
    let envelope := map (fun ti => exp (- ti * decay)) t in
    Ok (vmul hp_noise envelope, g')).

Definition generate_hihat_closed : Q -> Q -> M (list R) := hihat 100.
Definition generate_hihat_open : Q -> Q -> M (list R) := hihat 20.

(** [place_sound(track, sound, position_samples, volume)]: the track is
    mutated in place; the result is its new contents. *)
Definition place_sound (track sound : list R) (position_samples : Q) (volume : R)
  : result (list R) :=
  let start := py_int position_samples in
  let end_ := (start + Z.of_nat (length sound))%Z in
  let len_track := Z.of_nat (length track) in
  let '(end_, sound) :=
    if (end_ >? len_track)%Z
    then (len_track, py_slice sound None (Some (len_track - start)%Z))
    else (end_, sound) in
  slice_iadd track (Some start) (Some end_) (vscale sound volume).

Definition beat_to_samples (beat : Q) : Z :=
  py_int (beat * BEAT_DURATION * SAMPLE_RATE)%Q.

(** [normalize_and_convert(track)]: to 0.9 of full scale when the peak is
    positive, then to 16-bit integers. *)
Definition normalize_and_convert (track : list R) : result (list Z) :=
  peak <- np_max_abs track ;;
  let track := if Rlt_dec 0 peak then vscale (map (fun x => x / peak) track) 0.9
               else track in
  Ok (map (fun x => int16 (x * 32767)) track).

(** The drum voices a section places, and one call of [place_sound] with a
    freshly generated voice at a beat position. *)
Inductive voice : Set := Kick | Snare | HihatClosed | HihatOpen.


(** Each voice is generated with its default duration and sample rate. *)
Definition generate (v : voice) : M (list R) :=
  match v with
  | Kick => generate_kick 0.15 SAMPLE_RATE
  | Snare => generate_snare 0.12 SAMPLE_RATE
  | HihatClosed => generate_hihat_closed 0.04 SAMPLE_RATE
  | HihatOpen => generate_hihat_open 0.12 SAMPLE_RATE
  end.

Record placement : Type := Place { p_voice : voice; p_beat : Q; p_volume : R }.


(** [place_sound(track, generate_v(), beat_to_samples(beat), volume)]. *)
Definition play (track : list R) (p : placement) : M (list R) :=
  mbind (generate (p_voice p)) (fun sound =>
  lift (place_sound track sound (inject_Z (beat_to_samples (p_beat p))) (p_volume p))).

Fixpoint play_all (track : list R) (ps : list placement) : M (list R) :=
  match ps with
  | [] => ret track
  | p :: ps' => mbind (play track p) (fun track' => play_all track' ps')
  end.

(** The calls of [place_sound] that one pass of the bar loop of
    [generate_chorus] makes, in program order. *)
Definition chorus_bar (bar : Z) : list placement :=
  let bar_offset := (bar * 4)%Z in
  map (fun beat => Place Kick (inject_Z (bar_offset + beat)) 0.95) (range 4)
  ++ [ Place Snare (inject_Z (bar_offset + 1)) 0.85;
       Place Snare (inject_Z (bar_offset + 3)) 0.85 ]
  ++ map (fun eighth =>
            let beat_pos := (inject_Z bar_offset + inject_Z eighth * 0.5)%Q in
            if (eighth mod 2 =? 1)%Z
            then Place HihatOpen beat_pos 0.55
            else Place HihatClosed beat_pos 0.5) (range 8)
  ++ (if ((bar + 1) mod 4 =? 0)%Z
      then map (fun sixteenth =>
                  let fill_pos :=
                    (inject_Z (bar_offset + 3) + inject_Z sixteenth * 0.25)%Q in
                  Place Snare fill_pos (0.7 + IZR sixteenth * 0.05)) (range 4)
      else []).

Definition generate_chorus (num_beats : Z) : M (list Z) :=
  let total_samples := py_int (inject_Z num_beats * BEAT_DURATION * SAMPLE_RATE)%Q in
  mbind (lift (np_zeros total_samples)) (fun track =>
  mbind (play_all track (flat_map chorus_bar (range (py_floordiv num_beats 4))))
        (fun track => lift (normalize_and_convert track))).

(** The calls of [place_sound] that [generate_intro] makes: hi-hats on the
    eighth notes, growing louder, an open one on every second beat of the
    second half. *)
Definition intro_placements (num_beats : Z) : list placement :=
  let total_eighth_notes := (num_beats * 2)%Z in
  map (fun i =>
         let beat_pos := (inject_Z i * 0.5)%Q in
         let vol := 0.15 + 0.45 * (IZR i / IZR total_eighth_notes) in
         if (i mod 4 =? 0)%Z && (i >? py_floordiv total_eighth_notes 2)%Z
         then Place HihatOpen beat_pos vol
         else Place HihatClosed beat_pos vol)
      (range total_eighth_notes).

Definition generate_intro (num_beats : Z) : M (list Z) :=
  let total_samples := py_int (inject_Z num_beats * BEAT_DURATION * SAMPLE_RATE)%Q in
  mbind (lift (np_zeros total_samples)) (fun track =>
  mbind (play_all track (intro_placements num_beats))
        (fun track => lift (normalize_and_convert track))).

(** One pass of the bar loop of [generate_verse]. *)
Definition verse_bar (bar : Z) : list placement :=
  let bar_offset := (bar * 4)%Z in
  [ Place Kick (inject_Z (bar_offset + 0)) 0.9;
    Place Kick (inject_Z (bar_offset + 2)) 0.85;
    Place Snare (inject_Z (bar_offset + 1)) 0.75;
    Place Snare (inject_Z (bar_offset + 3)) 0.75 ]
  ++ map (fun eighth =>
            Place HihatClosed (inject_Z bar_offset + inject_Z eighth * 0.5)%Q 0.45)
         (range 8).

Definition generate_verse (num_beats : Z) : M (list Z) :=
  let total_samples := py_int (inject_Z num_beats * BEAT_DURATION * SAMPLE_RATE)%Q in
  mbind (lift (np_zeros total_samples)) (fun track =>
  mbind (play_all track (flat_map verse_bar (range (py_floordiv num_beats 4))))
        (fun track => lift (normalize_and_convert track))).

(** One pass of the bar loop of [generate_outro]: everything fades with
    the bar number, the second kick drops out of the fourth bar on, the
    second snare of the third bar on. *)
Definition outro_bar (num_beats bar : Z) : list placement :=
  let bar_offset := (bar * 4)%Z in
  let fade := 1.0 - (IZR bar / IZR (py_floordiv num_beats 4)) * 0.85 in
  [ Place Kick (inject_Z (bar_offset + 0)) (0.9 * fade) ]
  ++ (if (bar <? 3)%Z
      then [ Place Kick (inject_Z (bar_offset + 2)) (0.8 * fade) ] else [])
  ++ [ Place Snare (inject_Z (bar_offset + 1)) (0.7 * fade) ]
  ++ (if (bar <? 2)%Z
      then [ Place Snare (inject_Z (bar_offset + 3)) (0.7 * fade) ] else [])
  ++ map (fun eighth =>
            let beat_pos := (inject_Z bar_offset + inject_Z eighth * 0.5)%Q in
            let hh_fade := fade * (1.0 - (IZR eighth / 8) * 0.3) in
            Place HihatClosed beat_pos (0.4 * hh_fade))
         (range 8).

Definition generate_outro (num_beats : Z) : M (list Z) :=
  let total_samples := py_int (inject_Z num_beats * BEAT_DURATION * SAMPLE_RATE)%Q in
  mbind (lift (np_zeros total_samples)) (fun track =>
  mbind (play_all track
           (flat_map (outro_bar num_beats) (range (py_floordiv num_beats 4))))
        (fun track => lift (normalize_and_convert track))).

End Drums.

(** ** generate_bass.py *)

Module Bass.

Local Open Scope R_scope.

(** [sawtooth_wave(freq, duration, sample_rate)]: the sample times and the
    wave, rising from -1 to 1 over each period. *)
Definition sawtooth_wave (freq : R) (duration sample_rate : Q)
  : result (list R * list R) :=
  t <- np_linspace_open 0 (Q2R duration) (py_int (sample_rate * duration)) ;;
  let wave := map (fun ti => 2.0 * (ti * freq - np_floor (0.5 + ti * freq))) t in
  Ok (t, wave).

(** [adsr_envelope(num_samples, attack, decay, sustain_level, release,
    sample_rate)]. *)
Definition adsr_envelope (num_samples : Z) (attack decay : Q) (sustain_level : R)
           (release sample_rate : Q) : result (list R) :=
  env <- np_zeros num_samples ;;
  let attack_samples := py_int (attack * sample_rate) in
  let decay_samples := py_int (decay * sample_rate) in
  let release_samples := py_int (release * sample_rate) in
  let sustain_samples :=
    (num_samples - attack_samples - decay_samples - release_samples)%Z in
  if (sustain_samples <? 0)%Z then
    (* Short note: just do attack and release *)
    let half := py_floordiv num_samples 2 in
    up <- np_linspace 0 1 half ;;
    env <- slice_assign env None (Some half) up ;;
    down <- np_linspace 1 0 (num_samples - half) ;;
    env <- slice_assign env (Some half) None down ;;
    Ok env
  else
    let idx := 0%Z in
    (* Attack *)
    a <- np_linspace 0 1 attack_samples ;;
    env <- slice_assign env (Some idx) (Some (idx + attack_samples)%Z) a ;;
    let idx := (idx + attack_samples)%Z in
    (* Decay *)
    d <- np_linspace 1 sustain_level decay_samples ;;
    env <- slice_assign env (Some idx) (Some (idx + decay_samples)%Z) d ;;
    let idx := (idx + decay_samples)%Z in
    (* Sustain *)
    env <- slice_fill env (Some idx) (Some (idx + sustain_samples)%Z) sustain_level ;;
    let idx := (idx + sustain_samples)%Z in
    (* Release *)
    r <- np_linspace sustain_level 0 release_samples ;;
    env <- slice_assign env (Some idx) (Some (idx + release_samples)%Z) r ;;
    Ok env.

(** The default envelope of [make_bass_note]: [adsr_envelope(len(wave))]. *)
Definition adsr_default (num_samples : Z) : result (list R) :=
  adsr_envelope num_samples 0.01 0.05 0.7 0.1 SAMPLE_RATE.

(** The normalisation statement of [make_bass_note], [generate_verse],
    [generate_chorus] and [generate_outro]:
    [wave / (np.max(np.abs(wave)) + 1e-9) * volume]. *)
Definition normalize (wave : list R) (volume : R) : result (list R) :=
  peak <- np_max_abs wave ;;
  Ok (vscale (map (fun x => x / (peak + 1e-9)) wave) volume).

Section Filter.

(** scipy's filter design and application, [butter(order, wn, btype='low')]
    followed by [lfilter(b, a, signal)]: library code that the repository
    only calls. *)
Variable butter_lfilter : Z -> R -> list R -> result (list R).

(** [low_pass_filter(signal, cutoff, sample_rate, order)]. *)
Definition low_pass_filter (signal : list R) (cutoff : R) (sample_rate : Q)
           (order : Z) : result (list R) :=
  let nyq := Q2R sample_rate / 2.0 in
  let normalized_cutoff := Rmin (cutoff / nyq) 0.99 in
  butter_lfilter order normalized_cutoff signal.

(** [make_bass_note(freq, duration, cutoff, volume)]: saw wave with a sub
    oscillator one octave below, filtered, shaped by the default envelope
    and normalised to [volume]. *)
Definition make_bass_note (freq : R) (duration : Q) (cutoff volume : R)
  : result (list R) :=
  tw <- sawtooth_wave freq duration SAMPLE_RATE ;;
  let '(t, wave) := tw in
  let wave := vadd (vscale wave 0.7)
                   (map (fun ti => 0.3 * sin (2 * PI * (freq / 2) * ti)) t) in
  wave <- low_pass_filter wave cutoff SAMPLE_RATE 4 ;;
  env <- adsr_default (Z.of_nat (length wave)) ;;
  wave <- array_mul wave env ;;
  normalize wave volume.

End Filter.

(** [np.clip(x, -1.0, 1.0)]. *)
Definition clip (x : R) : R := Rmin (Rmax x (-1.0)) 1.0.

(** [save_wav]: the 16-bit samples handed to [wavfile.write]. *)
Definition save_wav (audio : list R) : list Z :=
  map (fun x => int16 (clip x * 32767)) audio.

End Bass.

(** ** generate_synths.py *)

Module Synths.

Local Open Scope R_scope.

(** [lowpass_filter(signal, cutoff, sr, order)], over scipy's design and
    application as in [generate_bass.py]. *)
Definition lowpass_filter
           (butter_lfilter : Z -> R -> list R -> result (list R))
           (signal : list R) (cutoff : R) (sr : Q) (order : Z)
  : result (list R) :=
  let nyq := 0.5 * Q2R sr in
  let norm_cutoff := Rmin (cutoff / nyq) 0.99 in
  butter_lfilter order norm_cutoff signal.

(** [adsr_envelope(num_samples, attack, decay, sustain_level, release, sr)]:
    every phase is clipped to what is left of the buffer. *)
Definition adsr_envelope (num_samples : Z) (attack decay : Q) (sustain_level : R)
           (release sr : Q) : result (list R) :=
  env <- np_zeros num_samples ;;
  let a_samples := py_int (attack * sr) in
  let d_samples := py_int (decay * sr) in
  let r_samples := py_int (release * sr) in
  let s_samples := Z.max 0 (num_samples - a_samples - d_samples - r_samples) in
  let idx := 0%Z in
  (* Attack *)
  st <- (if (a_samples >? 0)%Z then
           let end_ := Z.min (idx + a_samples) num_samples in
           a <- np_linspace 0 1 (end_ - idx) ;;
           env <- slice_assign env (Some idx) (Some end_) a ;;
           Ok (env, end_)
         else Ok (env, idx)) ;;
  let '(env, idx) := st in
  (* Decay *)
  st <- (if (idx <? num_samples)%Z && (d_samples >? 0)%Z then
           let end_ := Z.min (idx + d_samples) num_samples in
           d <- np_linspace 1 sustain_level (end_ - idx) ;;
           env <- slice_assign env (Some idx) (Some end_) d ;;
           Ok (env, end_)
         else Ok (env, idx)) ;;
  let '(env, idx) := st in
  (* Sustain *)
  st <- (if (idx <? num_samples)%Z && (s_samples >? 0)%Z then
           let end_ := Z.min (idx + s_samples) num_samples in
           env <- slice_fill env (Some idx) (Some end_) sustain_level ;;
           Ok (env, end_)
         else Ok (env, idx)) ;;
  let '(env, idx) := st in
  (* Release *)
  if (idx <? num_samples)%Z then
    r <- np_linspace sustain_level 0 (num_samples - idx) ;;
    slice_assign env (Some idx) None r
  else Ok env.

Definition adsr_default (num_samples : Z) : result (list R) :=
  adsr_envelope num_samples 0.01 0.1 0.7 0.1 SAMPLE_RATE.

(** The sample times [np.arange(int(duration * sr)) / sr]. *)
Definition times (duration sr : Q) : list R :=
  map (fun i => i / Q2R sr) (np_arange (py_int (duration * sr))).

Definition saw_wave (freq : R) (duration sr : Q) : list R :=
  map (fun ti => 2.0 * np_mod1 (ti * freq) - 1.0) (times duration sr).

Definition square_wave (freq : R) (duration sr : Q) : list R :=
  map (fun ti => np_sign (sin (2 * PI * freq * ti))) (times duration sr).

(** [detuned_saw_pad(freqs, duration, detune_hz, sr)]: three saw
    oscillators per frequency, detuned by [-detune_hz], 0 and [detune_hz],
    summed and divided by their number. *)
Definition detuned_saw_pad (freqs : list R) (duration : Q) (detune_hz : R) (sr : Q)
  : result (list R) :=
  let n := py_int (duration * sr) in
  signal <- np_zeros n ;;
  signal <- for_each freqs (fun signal f =>
              for_each [- detune_hz; 0; detune_hz] (fun signal offset =>
                array_iadd signal (saw_wave (f + offset) duration sr)) signal)
              signal ;;
  Ok (map (fun x => x / IZR (Z.of_nat (length freqs) * 3)) signal).

(** The first statement of [save_wav]: normalise to 0.7 peak. *)
Definition normalize_peak (audio : list R) : result (list R) :=
  peak <- np_max_abs audio ;;
  Ok (if Rlt_dec 0 peak then vscale audio (0.7 / peak) else audio).

(** [save_wav]: the 16-bit samples handed to [wavfile.write]. *)
Definition save_wav (audio : list R) : result (list Z) :=
  audio <- normalize_peak audio ;;
  Ok (map (fun x => int16 (x * 32767)) audio).

End Synths.

(** ** submit_synths.py *)

Module SubmitSynths.

(** A Python string, one character after the other. *)
Definition str : Type := list Ascii.ascii.

Definition double_quote : Ascii.ascii := Ascii.ascii_of_nat 34.
Definition backslash : Ascii.ascii := Ascii.ascii_of_nat 92.

(** [s.replace(old, new)] for a one-character [old]. *)
Definition str_replace (old : Ascii.ascii) (new : str) (s : str) : str :=
  flat_map (fun c => if Ascii.eqb c old then new else [c]) s.

(** The description as it is put between double quotes in the GraphQL
    query: every double quote of it replaced by a backslash and a double
    quote. *)
Definition description_escaped (description : str) : str :=
  str_replace double_quote [backslash; double_quote] description.

End SubmitSynths.

(** ** Predicates the properties are stated with *)

(** The range of an envelope sample for a sustain level [s]. *)
Definition env_range (s x : R) : Prop := (0 <= x <= Rmax 1 s)%R.

(** The half-open range of a sawtooth sample. *)
Definition saw_range (x : R) : Prop := (-1 <= x < 1)%R.

(** The placements of a section fit when each beat is inside it. *)
Definition fits (num_beats : Z) (ps : list Drums.placement) : Prop :=
  Forall (fun p => (0 <= Drums.p_beat p)%Q
                   /\ (Drums.p_beat p <= inject_Z num_beats)%Q) ps.


(** The range of the sum of [j] sawtooth samples. *)
Definition sum_range (j : nat) (x : R) : Prop :=
  (- INR j <= x <= INR j)%R /\ ((0 < j)%nat -> (x < INR j)%R).

(** What scipy promises of a digital low-pass design: a critical
    frequency strictly between 0 and 1 is accepted, and filtering keeps the
    length of the signal. *)
Definition scipy_contract (butter_lfilter : Z -> R -> list R -> result (list R))
  : Prop :=
  forall (order : Z) (wn : R) (signal : list R),
    (0 < wn < 1)%R ->
    exists out : list R,
      butter_lfilter order wn signal = Ok out /\ length out = length signal.

(** ** Facts about the primitives *)

Section PyIntFacts.

Local Open Scope Q_scope.

Lemma py_int_nonneg (x : Q) : 0 <= x -> py_int x = Qfloor x.
Proof.
  destruct x as [p q]; unfold Qle, py_int, Qfloor; simpl; intros H.
  apply Z.quot_div_nonneg; lia.
Qed.

Lemma py_int_neg (x : Q) : x <= 0 -> py_int x = (- Qfloor (- x))%Z.
Proof.
  destruct x as [p q]; unfold Qle, py_int, Qfloor, Qopp; simpl; intros H.
  rewrite <- (Z.opp_involutive p) at 1.
  rewrite Z.quot_opp_l by lia.
  f_equal. apply Z.quot_div_nonneg; lia.
Qed.

Lemma py_int_comp (x y : Q) : x == y -> py_int x = py_int y.
Proof.
  intros E. destruct (Qlt_le_dec x 0) as [Hx | Hx].
  - rewrite (py_int_neg (x := x)), (py_int_neg (x := y)).
    + now rewrite E.
    + rewrite <- E. now apply Qlt_le_weak.
    + now apply Qlt_le_weak.
  - rewrite (py_int_nonneg Hx), (@py_int_nonneg y) by (now rewrite <- E).
    now rewrite E.
Qed.

Lemma py_int_inject_Z (z : Z) : py_int (inject_Z z) = z.
Proof. unfold py_int; simpl. apply Z.quot_1_r. Qed.

Lemma py_int_of_Z (x : Q) (z : Z) : x == inject_Z z -> py_int x = z.
Proof. intros E. rewrite (py_int_comp E). apply py_int_inject_Z. Qed.



Lemma py_int_ge_0 (x : Q) : 0 <= x -> (0 <= py_int x)%Z.
Proof.
  intros H. rewrite (py_int_nonneg H).
  change 0%Z with (Qfloor 0). now apply Qfloor_resp_le.
Qed.

End PyIntFacts.

(** ** Beat positions and the chorus bar (generate_drums.py) *)

Section BeatGrid.

Import Drums.


Lemma beat_to_samples_int (n : Z) :
  beat_to_samples (inject_Z n) = (22050 * n)%Z.
Proof.
  unfold beat_to_samples. apply py_int_of_Z.
  rewrite inject_Z_mult. unfold BEAT_DURATION, BPM, SAMPLE_RATE.
  change (inject_Z 22050) with 22050%Q. field.
Qed.



End BeatGrid.

Example beat_to_samples_three_quarters :
  Drums.beat_to_samples 0.75 = 16537%Z.
Proof. reflexivity. Qed.

Example round_three_quarters : py_round (0.75 * 0.5 * 44100)%Q = 16538%Z.
Proof. reflexivity. Qed.



(** ** Placing a sound into a track (generate_drums.py) *)

Section ListFacts.

Local Open Scope nat_scope.

Lemma vmap2_length (f : R -> R -> R) (a b : list R) :
  length (vmap2 f a b) = Nat.min (length a) (length b).
Proof. unfold vmap2. now rewrite length_map, length_combine. Qed.

Lemma vmap2_nth (f : R -> R -> R) (a b : list R) (i : nat) (d da db : R) :
  i < length a -> i < length b ->
  nth i (vmap2 f a b) d = f (nth i a da) (nth i b db).
Proof.
  revert b i. induction a as [| x a IH]; intros [| y b] i Ha Hb; simpl in *; try lia.
  destruct i as [| i]; [reflexivity |].
  apply IH; lia.
Qed.

Lemma vscale_length (a : list R) (c : R) : length (vscale a c) = length a.
Proof. apply length_map. Qed.

Lemma vscale_nth (a : list R) (c : R) (i : nat) :
  nth i (vscale a c) 0%R = (nth i a 0 * c)%R.
Proof.
  unfold vscale.
  rewrite <- (Rmult_0_l c) at 1.
  apply (map_nth (fun x => (x * c)%R)).
Qed.

(** Replacing the [length mid] elements of [l] from index [a] on by [mid]. *)
Lemma splice_length (l mid : list R) (a : nat) :
  a + length mid <= length l ->
  length (firstn a l ++ mid ++ skipn (a + length mid) l) = length l.
Proof.
  intros H. rewrite !length_app, length_firstn, length_skipn. lia.
Qed.

Lemma splice_nth (l mid : list R) (a i : nat) (d : R) :
  a + length mid <= length l ->
  nth i (firstn a l ++ mid ++ skipn (a + length mid) l) d
  = if i <? a then nth i l d
    else if i <? a + length mid then nth (i - a) mid d
    else nth i l d.
Proof.
  intros H.
  assert (La : length (firstn a l) = a) by (rewrite length_firstn; lia).
  destruct (Nat.ltb_spec i a) as [Hi | Hi].
  - rewrite app_nth1 by lia. rewrite nth_firstn.
    destruct (Nat.ltb_spec i a); [reflexivity | lia].
  - rewrite app_nth2 by lia. rewrite La.
    destruct (Nat.ltb_spec i (a + length mid)) as [Hm | Hm].
    + now rewrite app_nth1 by lia.
    + rewrite app_nth2 by lia. rewrite nth_skipn. f_equal. lia.
Qed.

End ListFacts.

Section PlaceSound.

Import Drums.

Variables (track sound : list R) (position_samples : Q) (volume : R).

Let start : nat := Z.to_nat (py_int position_samples).
Let fit : nat := Nat.min (length sound) (length track - start).

Hypothesis start_in_range :
  (0 <= py_int position_samples <= Z.of_nat (length track))%Z.

(** With the start inside the track, [place_sound] never raises: it adds
    the first [fit] samples of the sound, scaled, from [start] on. *)
Lemma place_sound_in_range :
  place_sound track sound position_samples volume
  = Ok (firstn start track
        ++ vadd (firstn fit (skipn start track)) (vscale (firstn fit sound) volume)
        ++ skipn (start + fit) track).
Proof.
  unfold place_sound, slice_iadd, slice_update, slice_lo, slice_hi.
  assert (Hs : py_int position_samples = Z.of_nat start)
    by (unfold start; lia).
  assert (Hle : (start <= length track)%nat) by lia.
  rewrite Hs.
  destruct (Z.gtb_spec (Z.of_nat start + Z.of_nat (length sound))
                       (Z.of_nat (length track))) as [Hover | Hfits].
  - (* the sound is cut at the end of the track *)
    assert (Hfit : fit = (length track - start)%nat) by (unfold fit; lia).
    assert (Ha : slice_index (length track) (Z.of_nat start) = start).
    { unfold slice_index. destruct (Z.ltb_spec (Z.of_nat start) 0); lia. }
    assert (Hb : slice_index (length track) (Z.of_nat (length track)) = length track).
    { unfold slice_index. destruct (Z.ltb_spec (Z.of_nat (length track)) 0); lia. }
    assert (Hc : slice_index (length sound) (Z.of_nat (length track) - Z.of_nat start)
                 = fit).
    { unfold slice_index.
      destruct (Z.ltb_spec (Z.of_nat (length track) - Z.of_nat start) 0); lia. }
    unfold py_slice, slice_lo, slice_hi. rewrite Ha, Hb, Hc.
    rewrite Nat.sub_0_r, skipn_O.
    unfold broadcast_to. rewrite vscale_length, length_firstn.
    replace (Nat.min fit (length sound)) with (length track - start)%nat by lia.
    rewrite Nat.eqb_refl. cbn [bind]. rewrite <- Hfit. reflexivity.
  - (* the sound fits *)
    assert (Hfit : fit = length sound) by (unfold fit; lia).
    assert (Ha : slice_index (length track) (Z.of_nat start) = start).
    { unfold slice_index. destruct (Z.ltb_spec (Z.of_nat start) 0); lia. }
    assert (Hb : slice_index (length track)
                   (Z.of_nat start + Z.of_nat (length sound))
                 = (start + length sound)%nat).
    { unfold slice_index.
      destruct (Z.ltb_spec (Z.of_nat start + Z.of_nat (length sound)) 0); lia. }
    rewrite Ha, Hb.
    replace (start + length sound - start)%nat with (length sound) by lia.
    unfold broadcast_to. rewrite vscale_length, Nat.eqb_refl. cbn [bind].
    rewrite Hfit, firstn_all. reflexivity.
Qed.

Lemma placed_segment_length :
  length (vadd (firstn fit (skipn start track)) (vscale (firstn fit sound) volume))
  = fit.
Proof.
  unfold vadd. rewrite vmap2_length, vscale_length, !length_firstn, length_skipn.
  unfold fit. lia.
Qed.

End PlaceSound.

(** C10.  For a non-negative position whose sample index is at most the
    track length, [place_sound] returns normally; the track keeps its
    length; the entries from [int(p)] up to, not including,
    [min(int(p) + len(sound), len(track))] gain the matching sound sample
    times the volume; every other entry is what it was. *)
Theorem place_sound_frame (track sound : list R) (p : Q) (volume : R) :
  (0 <= p)%Q ->
  (py_int p <= Z.of_nat (length track))%Z ->
  let start := Z.to_nat (py_int p) in
  let stop := Nat.min (start + length sound) (length track) in
  exists track' : list R,
    Drums.place_sound track sound p volume = Ok track' /\
    length track' = length track /\
    (forall i : nat, (start <= i < stop)%nat ->
       nth i track' 0%R = (nth i track 0 + nth (i - start) sound 0 * volume)%R) /\
    (forall i : nat, (i < start \/ stop <= i)%nat ->
       nth i track' 0%R = nth i track 0%R).
Proof.
  intros Hp Hle start stop.
  assert (Hrange : (0 <= py_int p <= Z.of_nat (length track))%Z)
    by (split; [now apply py_int_ge_0 | exact Hle]).
  pose proof (@place_sound_in_range track sound p volume Hrange) as Hplace.
  pose proof (@placed_segment_length track sound p volume) as Hseg.
  cbv zeta in Hplace, Hseg. fold start in Hplace, Hseg.
  set (fit := Nat.min (length sound) (length track - start)) in *.
  set (mid := vadd _ _) in *.
  assert (Hstart : (start <= length track)%nat) by (unfold start; lia).
  assert (Hstop : stop = (start + fit)%nat) by (unfold stop, fit; lia).
  assert (Hroom : (start + length mid <= length track)%nat)
    by (rewrite Hseg; unfold fit; lia).
  eexists. split; [exact Hplace |].
  rewrite <- Hseg.
  split; [now apply splice_length |].
  split; intros i Hi.
  - rewrite splice_nth by exact Hroom.
    destruct (Nat.ltb_spec i start); [lia |].
    destruct (Nat.ltb_spec i (start + length mid)); [| lia].
    unfold mid, vadd.
    rewrite (@vmap2_nth Rplus _ _ (i - start) 0%R 0%R 0%R).
    + rewrite vscale_nth, !nth_firstn.
      destruct (Nat.ltb_spec (i - start) fit); [| lia].
      rewrite nth_skipn. do 2 f_equal. lia.
    + rewrite length_firstn, length_skipn. unfold fit. lia.
    + rewrite vscale_length, length_firstn. unfold fit. lia.
  - rewrite splice_nth by exact Hroom.
    destruct (Nat.ltb_spec i start); [reflexivity |].
    destruct (Nat.ltb_spec i (start + length mid)); [lia | reflexivity].
Qed.

Lemma place_sound_frame_witness :
  exists track' : list R,
    Drums.place_sound [1; 2; 3]%R [10; 20; 30]%R 2 0.5%R = Ok track' /\
    length track' = 3%nat /\
    nth 0 track' 0%R = 1%R /\
    nth 2 track' 0%R = (3 + 10 * 0.5)%R.
Proof.
  destruct (@place_sound_frame [1; 2; 3]%R [10; 20; 30]%R 2 0.5%R)
    as (track' & Hrun & Hlen & Hin & Hout).
  - vm_compute; congruence.
  - vm_compute; congruence.
  - exists track'. split; [exact Hrun |]. split; [exact Hlen |]. split.
    + apply (Hout 0%nat). left. vm_compute. lia.
    + apply (Hin 2%nat). vm_compute. lia.
Defined.

(** C6.  When the start is inside the track and the sound would run past
    the end, [place_sound] does not raise: the track keeps its length, the
    entries from the start to the end of the track gain the first
    [len(track) - start] scaled sound samples, and the result is the one
    that placing the sound cut to that length gives. *)
Theorem place_sound_truncates (track sound : list R) (p : Q) (volume : R) :
  (0 <= py_int p <= Z.of_nat (length track))%Z ->
  (py_int p + Z.of_nat (length sound) > Z.of_nat (length track))%Z ->
  let start := Z.to_nat (py_int p) in
  let room := (length track - start)%nat in
  exists track' : list R,
    Drums.place_sound track sound p volume = Ok track' /\
    length track' = length track /\
    track' = firstn start track
             ++ vadd (skipn start track) (vscale (firstn room sound) volume) /\
    Drums.place_sound track (firstn room sound) p volume = Ok track'.
Proof.
  intros Hrange Hover start room.
  pose proof (@place_sound_in_range track sound p volume Hrange) as Hplace.
  pose proof (@place_sound_in_range track (firstn room sound) p volume Hrange) as Hcut.
  cbv zeta in Hplace, Hcut. fold start in Hplace, Hcut. fold room in Hplace, Hcut.
  assert (Hfit : Nat.min (length sound) room = room) by (unfold room, start; lia).
  assert (Hfit' : Nat.min (length (firstn room sound)) room = room)
    by (rewrite length_firstn; lia).
  rewrite Hfit in Hplace. rewrite Hfit' in Hcut.
  assert (Hroom : (start + room)%nat = length track) by (unfold room, start; lia).
  assert (Htail : firstn room (skipn start track) = skipn start track)
    by (apply firstn_all2; rewrite length_skipn; unfold room; lia).
  assert (Hidem : firstn room (firstn room sound) = firstn room sound)
    by (apply firstn_all2; rewrite length_firstn; lia).
  rewrite Hroom, skipn_all, app_nil_r, Htail in Hplace.
  rewrite Hroom, skipn_all, app_nil_r, Htail, Hidem in Hcut.
  eexists. split; [exact Hplace |].
  split; [| split; [reflexivity | exact Hcut]].
  rewrite length_app, length_firstn. unfold vadd.
  rewrite vmap2_length, vscale_length, length_firstn, length_skipn.
  unfold room, start in *. lia.
Qed.

Lemma place_sound_truncates_witness :
  exists track' : list R,
    Drums.place_sound [1; 2; 3]%R [10; 20; 30]%R 2 0.5%R = Ok track' /\
    length track' = 3%nat /\
    track' = [1; 2]%R ++ vadd [3%R] (vscale [10%R] 0.5).
Proof.
  destruct (@place_sound_truncates [1; 2; 3]%R [10; 20; 30]%R 2 0.5%R)
    as (track' & Hrun & Hlen & Hshape & _).
  - vm_compute; split; congruence.
  - vm_compute; reflexivity.
  - exists track'. split; [exact Hrun |]. split; [exact Hlen | exact Hshape].
Defined.

(** ** The sawtooth oscillators (generate_bass.py, generate_synths.py) *)

Section Sawtooth.

Local Open Scope R_scope.


Lemma synths_saw_sample_range (x : R) :
  saw_range (2.0 * np_mod1 x - 1.0).
Proof.
  unfold saw_range, np_mod1.
  pose proof (Zfloor_bound x) as [Hlo Hhi]. lra.
Qed.

Lemma linspace_open_length (start stop : R) (n : nat) :
  length (linspace_open start stop n) = n.
Proof. unfold linspace_open. now rewrite length_map, length_seq. Qed.

Lemma np_arange_length (n : Z) : length (np_arange n) = Z.to_nat n.
Proof. unfold np_arange. now rewrite length_map, length_seq. Qed.


End Sawtooth.




(** ** Slices and ramps: what the envelope generators are built from *)

Section SliceFacts.

Local Open Scope nat_scope.

Lemma slice_index_le (len : nat) (i : Z) : slice_index len i <= len.
Proof. unfold slice_index. destruct (Z.ltb_spec i 0); lia. Qed.

Lemma slice_index_inside (len : nat) (i : Z) :
  (0 <= i <= Z.of_nat len)%Z -> slice_index len i = Z.to_nat i.
Proof. intros H. unfold slice_index. destruct (Z.ltb_spec i 0); lia. Qed.

Lemma map_snd_combine (a b : list R) :
  length a = length b ->
  map (fun p : R * R => snd p) (combine a b) = b.
Proof.
  revert b. induction a as [| x a IH]; intros [| y b] H; simpl in *;
    try discriminate; [reflexivity |].
  f_equal. apply IH. lia.
Qed.

(** An assignment whose right-hand side has the length of the slice
    replaces the slice. *)
Lemma slice_assign_exact (l vals : list R) (lo hi : option Z) :
  slice_lo (length l) lo + length vals = slice_hi (length l) hi ->
  slice_hi (length l) hi <= length l ->
  slice_assign l lo hi vals
  = Ok (firstn (slice_lo (length l) lo) l ++ vals
        ++ skipn (slice_hi (length l) hi) l).
Proof.
  intros Hlen Hhi. unfold slice_assign, slice_update.
  set (a := slice_lo (length l) lo) in *.
  set (b := slice_hi (length l) hi) in *.
  unfold broadcast_to.
  replace (b - a) with (length vals) by lia.
  rewrite Nat.eqb_refl. cbn [bind].
  rewrite map_snd_combine.
  - now replace (a + length vals) with b by lia.
  - rewrite length_firstn, length_skipn. lia.
Qed.

(** A scalar assignment fills the slice. *)
Lemma slice_fill_exact (l : list R) (lo hi : option Z) (c : R) :
  slice_lo (length l) lo <= slice_hi (length l) hi ->
  slice_hi (length l) hi <= length l ->
  slice_fill l lo hi c
  = Ok (firstn (slice_lo (length l) lo) l
        ++ repeat c (slice_hi (length l) hi - slice_lo (length l) lo)
        ++ skipn (slice_hi (length l) hi) l).
Proof.
  intros Hlo Hhi. unfold slice_fill, slice_assign, slice_update.
  set (a := slice_lo (length l) lo) in *.
  set (b := slice_hi (length l) hi) in *.
  assert (Hb : broadcast_to [c] (b - a) = Ok (repeat c (b - a))).
  { unfold broadcast_to. simpl length.
    destruct (Nat.eqb_spec 1 (b - a)) as [E | _]; [now rewrite <- E |].
    reflexivity. }
  rewrite Hb. cbn [bind].
  rewrite map_snd_combine.
  - now replace (a + (b - a)) with b by lia.
  - rewrite length_firstn, length_skipn, repeat_length. lia.
Qed.

End SliceFacts.

Section Ramps.

Local Open Scope R_scope.

Lemma linspace_length (a b : R) (n : nat) : length (linspace a b n) = n.
Proof.
  destruct n as [| [| k]]; try reflexivity.
  unfold linspace. rewrite length_app, length_map, length_seq. simpl. lia.
Qed.

Lemma nth_map_seq (f : nat -> R) (n i : nat) (d : R) :
  (i < n)%nat -> nth i (map f (seq 0 n)) d = f i.
Proof.
  intros H.
  rewrite (nth_indep _ d (f 0%nat)) by (rewrite length_map, length_seq; lia).
  rewrite (map_nth f). now rewrite seq_nth.
Qed.

(** Every sample of a ramp lies between its two ends. *)
Lemma linspace_between (lo hi a b : R) (n : nat) :
  lo <= a <= hi -> lo <= b <= hi ->
  Forall (fun x => lo <= x <= hi) (linspace a b n).
Proof.
  intros Ha Hb. destruct n as [| [| k]].
  - constructor.
  - constructor; [exact Ha | constructor].
  - unfold linspace. apply Forall_app. split; [| constructor; [exact Hb | constructor]].
    apply Forall_map, Forall_forall. intros i Hi.
    apply in_seq in Hi.
    assert (HD : 0 < INR (S k)) by (apply lt_0_INR; lia).
    assert (HI : 0 <= INR i <= INR (S k)).
    { split; [apply pos_INR | apply le_INR; lia]. }
    set (D := INR (S k)) in *. set (I := INR i) in *.
    assert (E : I * ((b - a) / D) + a = a + (I / D) * (b - a))
      by (field; lra).
    rewrite E.
    assert (Ht : 0 <= I / D <= 1).
    { split.
      - apply Rmult_le_pos; [lra |]. apply Rlt_le, Rinv_0_lt_compat; lra.
      - apply (Rmult_le_reg_r D); [lra |]. unfold Rdiv.
        rewrite Rmult_assoc, Rinv_l by lra. lra. }
    set (t := I / D) in *. nra.
Qed.

(** The [i]-th sample of a ramp of at least two samples. *)
Lemma linspace_nth (a b : R) (n i : nat) :
  (2 <= n)%nat -> (i < n)%nat ->
  nth i (linspace a b n) 0 = a + INR i / INR (n - 1) * (b - a).
Proof.
  intros Hn Hi. destruct n as [| [| k]]; try lia.
  unfold linspace.
  replace (S (S k) - 1)%nat with (S k) by lia.
  assert (HD : INR (S k) <> 0) by (apply not_0_INR; lia).
  destruct (Nat.eq_dec i (S k)) as [-> | Hne].
  - rewrite app_nth2 by (rewrite length_map, length_seq; lia).
    rewrite length_map, length_seq, Nat.sub_diag. simpl nth. field. exact HD.
  - rewrite app_nth1 by (rewrite length_map, length_seq; lia).
    rewrite nth_map_seq by lia. field. exact HD.
Qed.

End Ramps.

(** ** The ADSR envelopes (generate_bass.py, generate_synths.py) *)

Section EnvelopeSteps.

Local Open Scope R_scope.

Lemma np_zeros_ok (n : Z) :
  (0 <= n)%Z -> np_zeros n = Ok (repeat 0 (Z.to_nat n)).
Proof. intros H. unfold np_zeros. destruct (Z.ltb_spec n 0); [lia | reflexivity]. Qed.

Lemma np_linspace_ok (a b : R) (n : Z) :
  (0 <= n)%Z -> np_linspace a b n = Ok (linspace a b (Z.to_nat n)).
Proof. intros H. unfold np_linspace. destruct (Z.ltb_spec n 0); [lia | reflexivity]. Qed.

Variable P : R -> Prop.

Lemma Forall_firstn (n : nat) (l : list R) : Forall P l -> Forall P (firstn n l).
Proof.
  intros H. revert n. induction H as [| x l Hx Hl IH]; intros [| n]; simpl;
    constructor; auto.
Qed.

Lemma Forall_skipn (n : nat) (l : list R) : Forall P l -> Forall P (skipn n l).
Proof.
  intros H. revert n. induction H as [| x l Hx Hl IH]; intros [| n]; simpl;
    auto.
Qed.

(** One phase of an envelope: [env[idx:end] = vals] with [vals] as long as
    the slice keeps the length and whatever holds of every sample. *)
Lemma assign_phase (env vals : list R) (idx end_ : Z) :
  (0 <= idx <= end_)%Z -> (end_ <= Z.of_nat (length env))%Z ->
  length vals = Z.to_nat (end_ - idx) ->
  Forall P env -> Forall P vals ->
  exists env' : list R,
    slice_assign env (Some idx) (Some end_) vals = Ok env' /\
    length env' = length env /\ Forall P env'.
Proof.
  intros Hidx Hend Hlen Henv Hvals.
  rewrite slice_assign_exact;
    unfold slice_lo, slice_hi; rewrite ?slice_index_inside by lia; try lia.
  eexists. split; [reflexivity |]. split.
  - rewrite !length_app, length_firstn, length_skipn. lia.
  - repeat (apply Forall_app; split); auto using Forall_firstn, Forall_skipn.
Qed.

(** The last phase: [env[idx:] = vals]. *)
Lemma assign_tail_phase (env vals : list R) (idx : Z) :
  (0 <= idx <= Z.of_nat (length env))%Z ->
  length vals = Z.to_nat (Z.of_nat (length env) - idx) ->
  Forall P env -> Forall P vals ->
  exists env' : list R,
    slice_assign env (Some idx) None vals = Ok env' /\
    length env' = length env /\ Forall P env'.
Proof.
  intros Hidx Hlen Henv Hvals.
  rewrite slice_assign_exact;
    unfold slice_lo, slice_hi; rewrite ?slice_index_inside by lia; try lia.
  eexists. split; [reflexivity |]. split.
  - rewrite !length_app, length_firstn, length_skipn. lia.
  - repeat (apply Forall_app; split); auto using Forall_firstn, Forall_skipn.
Qed.

(** The sustain phase: [env[idx:end] = c]. *)
Lemma fill_phase (env : list R) (idx end_ : Z) (c : R) :
  (0 <= idx <= end_)%Z -> (end_ <= Z.of_nat (length env))%Z ->
  Forall P env -> P c ->
  exists env' : list R,
    slice_fill env (Some idx) (Some end_) c = Ok env' /\
    length env' = length env /\ Forall P env'.
Proof.
  intros Hidx Hend Henv Hc.
  rewrite slice_fill_exact;
    unfold slice_lo, slice_hi; rewrite ?slice_index_inside by lia; try lia.
  eexists. split; [reflexivity |]. split.
  - rewrite !length_app, length_firstn, length_skipn, repeat_length. lia.
  - repeat (apply Forall_app; split); auto using Forall_firstn, Forall_skipn.
    apply Forall_forall. intros x Hx. apply repeat_spec in Hx. now subst.
Qed.

End EnvelopeSteps.

Section BassEnvelope.
Local Open Scope R_scope.

Lemma bass_fallback_shape (n : Z) (attack decay : Q) (s : R) (release : Q) :
  (0 <= n)%Z ->
  (n - py_int (attack * SAMPLE_RATE) - py_int (decay * SAMPLE_RATE)
     - py_int (release * SAMPLE_RATE) < 0)%Z ->
  Bass.adsr_envelope n attack decay s release SAMPLE_RATE
  = Ok (linspace 0 1 (Z.to_nat (n / 2)) ++ linspace 1 0 (Z.to_nat (n - n / 2))).
Proof.
  intros Hn Hshort.
  assert (Hhalf : (0 <= n / 2 <= n)%Z).
  { split; [apply Z.div_pos; lia |]. apply Z.div_le_upper_bound; lia. }
  unfold Bass.adsr_envelope, py_floordiv.
  rewrite np_zeros_ok by exact Hn. cbn [bind]. cbv zeta.
  destruct (Z.ltb_spec (n - py_int (attack * SAMPLE_RATE) - py_int (decay * SAMPLE_RATE)
     - py_int (release * SAMPLE_RATE)) 0) as [_ | Hge]; [| lia].
  rewrite !np_linspace_ok by lia. cbn [bind].
  rewrite slice_assign_exact.
  2:{ unfold slice_lo, slice_hi. rewrite repeat_length, linspace_length.
      rewrite slice_index_inside by lia. lia. }
  2:{ unfold slice_hi. apply slice_index_le. }
  cbn [bind].
  unfold slice_lo at 1. unfold slice_hi at 1.
  rewrite repeat_length, slice_index_inside by lia.
  cbn [firstn app].
  set (up := linspace 0 1 (Z.to_nat (n / 2))).
  set (down := linspace 1 0 (Z.to_nat (n - n / 2))).
  set (env1 := up ++ skipn (Z.to_nat (n / 2)) (repeat 0 (Z.to_nat n))).
  assert (Hup : length up = Z.to_nat (n / 2)) by apply linspace_length.
  assert (Hdown : length down = Z.to_nat (n - n / 2)) by apply linspace_length.
  assert (Henv1 : length env1 = Z.to_nat n).
  { unfold env1. rewrite length_app, length_skipn, repeat_length. lia. }
  rewrite slice_assign_exact.
  2:{ unfold slice_lo, slice_hi. rewrite Henv1, slice_index_inside by lia. lia. }
  2:{ unfold slice_hi. lia. }
  cbn [bind]. f_equal.
  unfold slice_lo, slice_hi. rewrite Henv1, slice_index_inside by lia.
  replace (skipn (Z.to_nat n) env1) with (@nil R)
    by (now rewrite <- Henv1, skipn_all).
  rewrite app_nil_r.
  f_equal. unfold env1. rewrite <- Hup.
  rewrite firstn_app, Nat.sub_diag, firstn_all. cbn [firstn]. apply app_nil_r.
Qed.
End BassEnvelope.

Section SynthsEnvelope.
Local Open Scope R_scope.

(** Without a fallback, an attack at least as long as the buffer fills the
    whole buffer with the ramp 0 to 1; the later phases get nothing. *)
Lemma synths_attack_only (n : Z) (attack decay : Q) (s : R) (release : Q) :
  (0 < n <= py_int (attack * SAMPLE_RATE))%Z ->
  Synths.adsr_envelope n attack decay s release SAMPLE_RATE
  = Ok (linspace 0 1 (Z.to_nat n)).
Proof.
  intros Hn.
  unfold Synths.adsr_envelope.
  rewrite np_zeros_ok by lia. cbn [bind]. cbv zeta.
  destruct (Z.gtb_spec (py_int (attack * SAMPLE_RATE)) 0) as [_ | Hle]; [| lia].
  rewrite Z.add_0_l, Z.min_r, Z.sub_0_r by lia.
  rewrite np_linspace_ok by lia. cbn [bind].
  rewrite slice_assign_exact.
  2:{ unfold slice_lo, slice_hi. rewrite repeat_length, linspace_length.
      rewrite !slice_index_inside by lia. lia. }
  2:{ unfold slice_hi. apply slice_index_le. }
  cbv beta iota zeta delta [bind andb].
  repeat (rewrite Z.ltb_irrefl; cbv beta iota zeta delta [bind andb]).
  unfold slice_lo, slice_hi. rewrite repeat_length, !slice_index_inside by lia.
  f_equal. cbn [Z.to_nat firstn app].
  rewrite <- (repeat_length 0 (Z.to_nat n)) at 2.
  now rewrite skipn_all, app_nil_r.
Qed.

End SynthsEnvelope.



(** C1, as the code has it.  In [generate_bass.py], an envelope whose
    attack, decay and release sample counts together exceed the buffer is
    the fallback: the first [num_samples // 2] samples are the linear ramp
    from 0 to 1 and the remaining ones the linear ramp from 1 to 0.  The
    envelope of [generate_synths.py] has no fallback: when the attack alone
    is at least as long as the buffer, the whole buffer is the ramp from 0
    to 1. *)
Theorem adsr_short_note_fallback (n : Z) (attack decay : Q) (s : R) (release : Q) :
  (0 <= n)%Z ->
  (py_int (attack * SAMPLE_RATE) + py_int (decay * SAMPLE_RATE)
     + py_int (release * SAMPLE_RATE) > n)%Z ->
  let half := Z.to_nat (n / 2) in
  let rest := Z.to_nat (n - n / 2) in
  let env := linspace 0 1 half ++ linspace 1 0 rest in
  Bass.adsr_envelope n attack decay s release SAMPLE_RATE = Ok env /\
  (forall i : nat, (2 <= half)%nat -> (i < half)%nat ->
     nth i env 0%R = (INR i / INR (half - 1))%R) /\
  (forall j : nat, (2 <= rest)%nat -> (j < rest)%nat ->
     nth (half + j) env 0%R = (1 - INR j / INR (rest - 1))%R) /\
  ((0 < n <= py_int (attack * SAMPLE_RATE))%Z ->
     Synths.adsr_envelope n attack decay s release SAMPLE_RATE
     = Ok (linspace 0 1 (Z.to_nat n))).
Proof.
  intros Hn Hshort half rest env.
  split; [apply bass_fallback_shape; lia |].
  split; [| split].
  - intros i H2 Hi. unfold env.
    rewrite app_nth1 by (rewrite linspace_length; exact Hi).
    rewrite linspace_nth by assumption. lra.
  - intros j H2 Hj. unfold env.
    rewrite app_nth2 by (rewrite linspace_length; lia).
    rewrite linspace_length.
    replace (half + j - half)%nat with j by lia.
    rewrite linspace_nth by assumption. lra.
  - apply synths_attack_only.
Qed.

Lemma adsr_short_note_fallback_witness :
  Bass.adsr_default 100 = Ok (linspace 0 1 50 ++ linspace 1 0 50).
Proof.
  refine (proj1 (@adsr_short_note_fallback 100 0.01 0.05 0.7%R 0.1 _ _)).
  - vm_compute; congruence.
  - vm_compute; reflexivity.
Defined.

(** C1 as stated fails for the envelope of [generate_synths.py]: for a
    total of 100 samples and the default timings the buffer is one ramp
    from 0 to 1, so sample 50 is 50/99 rather than 1 and the last sample is
    1 rather than 0. *)
Lemma synths_adsr_has_no_fallback :
  Synths.adsr_default 100 = Ok (linspace 0 1 100) /\
  nth 50 (linspace 0 1 100) 0%R = (50 / 99)%R /\
  nth 99 (linspace 0 1 100) 0%R = 1%R.
Proof.
  split; [| split].
  - apply synths_attack_only. vm_compute. split; congruence.
  - rewrite linspace_nth by lia. rewrite !INR_IZR_INZ. simpl Z.of_nat. lra.
  - rewrite linspace_nth by lia. rewrite !INR_IZR_INZ. simpl Z.of_nat. lra.
Qed.

Section EnvelopeBounds.

Local Open Scope R_scope.

Variable s : R.
Hypothesis s_range : 0 <= s <= 1.

Local Abbreviation bounded := (env_range s).

Lemma bounded_0 : bounded 0.
Proof. unfold env_range. pose proof (Rmax_l 1 s). lra. Qed.

Lemma bounded_1 : bounded 1.
Proof. unfold env_range. pose proof (Rmax_l 1 s). lra. Qed.

Lemma bounded_s : bounded s.
Proof. unfold env_range. pose proof (Rmax_r 1 s). lra. Qed.

Lemma bounded_zeros (n : nat) : Forall bounded (repeat 0 n).
Proof.
  apply Forall_forall. intros x Hx. apply repeat_spec in Hx. subst. apply bounded_0.
Qed.

Lemma bounded_ramp (a b : R) (n : nat) :
  bounded a -> bounded b -> Forall bounded (linspace a b n).
Proof. intros Ha Hb. now apply linspace_between. Qed.

Lemma bass_adsr_bounded (n : Z) (attack decay release : Q) :
  (0 <= n)%Z -> (0 <= attack)%Q -> (0 <= decay)%Q -> (0 <= release)%Q ->
  exists env : list R,
    Bass.adsr_envelope n attack decay s release SAMPLE_RATE = Ok env /\
    Z.of_nat (length env) = n /\ Forall bounded env.
Proof.
  intros Hn Ha Hd Hr.
  assert (Hsr : (0 <= SAMPLE_RATE)%Q) by (vm_compute; congruence).
  pose proof (py_int_ge_0 (Qmult_le_0_compat _ _ Ha Hsr)) as HA.
  pose proof (py_int_ge_0 (Qmult_le_0_compat _ _ Hd Hsr)) as HD.
  pose proof (py_int_ge_0 (Qmult_le_0_compat _ _ Hr Hsr)) as HR.
  destruct (Z.ltb_spec (n - py_int (attack * SAMPLE_RATE) - py_int (decay * SAMPLE_RATE)
                          - py_int (release * SAMPLE_RATE)) 0) as [Hshort | Hlong].
  - rewrite bass_fallback_shape by lia.
    assert (Hhalf : (0 <= n / 2 <= n)%Z).
    { split; [apply Z.div_pos; lia |]. apply Z.div_le_upper_bound; lia. }
    eexists. split; [reflexivity |]. split.
    + rewrite length_app, !linspace_length. lia.
    + apply Forall_app; split; apply bounded_ramp;
        auto using bounded_0, bounded_1.
  - unfold Bass.adsr_envelope.
    set (A := py_int (attack * SAMPLE_RATE)) in *.
    set (D := py_int (decay * SAMPLE_RATE)) in *.
    set (Rl := py_int (release * SAMPLE_RATE)) in *.
    rewrite np_zeros_ok by exact Hn. cbn [bind]. cbv zeta.
    destruct (Z.ltb_spec (n - A - D - Rl) 0) as [Hlt | _]; [lia |].
    rewrite !np_linspace_ok by lia. cbn [bind].
    pose proof (repeat_length 0 (Z.to_nat n)) as L0.
    pose proof (bounded_zeros (Z.to_nat n)) as F0.
    destruct (@assign_phase bounded (repeat 0 (Z.to_nat n))
                (linspace 0 1 (Z.to_nat A)) 0 (0 + A))
      as (env1 & E1 & L1 & F1);
      [lia | lia | rewrite linspace_length; lia | exact F0
       | apply bounded_ramp; auto using bounded_0, bounded_1 |].
    rewrite E1. cbn [bind]. rewrite L0 in L1.
    destruct (@assign_phase bounded env1
                (linspace 1 s (Z.to_nat D)) (0 + A) (0 + A + D))
      as (env2 & E2 & L2 & F2);
      [lia | lia | rewrite linspace_length; lia | exact F1
       | apply bounded_ramp; auto using bounded_s, bounded_1 |].
    rewrite E2. cbn [bind]. rewrite L1 in L2.
    destruct (@fill_phase bounded env2 (0 + A + D) (0 + A + D + (n - A - D - Rl)) s)
      as (env3 & E3 & L3 & F3);
      [lia | lia | exact F2 | exact bounded_s |].
    rewrite E3. cbn [bind]. rewrite L2 in L3.
    destruct (@assign_phase bounded env3
                (linspace s 0 (Z.to_nat Rl)) (0 + A + D + (n - A - D - Rl))
                (0 + A + D + (n - A - D - Rl) + Rl))
      as (env4 & E4 & L4 & F4);
      [lia | lia | rewrite linspace_length; lia | exact F3
       | apply bounded_ramp; auto using bounded_s, bounded_0 |].
    rewrite E4. cbn [bind]. rewrite L3 in L4.
    exists env4. split; [reflexivity |]. split; [lia | exact F4].
Qed.

(** One guarded ramp phase of the synth envelope, from [idx] on. *)
Lemma synths_ramp_phase (env : list R) (idx n k : Z) (a b : R) (guard : bool) :
  Z.of_nat (length env) = n -> Forall bounded env -> (0 <= idx <= n)%Z ->
  (guard = true -> (0 < k)%Z) -> bounded a -> bounded b ->
  exists (env' : list R) (idx' : Z),
    (if guard then
       vals <- np_linspace a b (Z.min (idx + k) n - idx) ;;
       env0 <- slice_assign env (Some idx) (Some (Z.min (idx + k) n)) vals ;;
       Ok (env0, Z.min (idx + k) n)
     else Ok (env, idx)) = Ok (env', idx') /\
    Z.of_nat (length env') = n /\ Forall bounded env' /\ (0 <= idx' <= n)%Z.
Proof.
  intros Hlen Henv Hidx Hk Ha Hb. destruct guard.
  - specialize (Hk eq_refl).
    rewrite np_linspace_ok by lia. cbn [bind].
    destruct (@assign_phase bounded env
                (linspace a b (Z.to_nat (Z.min (idx + k) n - idx)))
                idx (Z.min (idx + k) n))
      as (env' & E & L & F);
      [lia | lia | rewrite linspace_length; lia | exact Henv
       | now apply bounded_ramp |].
    rewrite E. cbn [bind]. exists env', (Z.min (idx + k) n).
    split; [reflexivity |]. split; [lia |]. split; [exact F | lia].
  - exists env, idx. auto.
Qed.

(** The guarded sustain phase. *)
Lemma synths_fill_phase (env : list R) (idx n k : Z) (guard : bool) :
  Z.of_nat (length env) = n -> Forall bounded env -> (0 <= idx <= n)%Z ->
  (guard = true -> (0 < k)%Z) ->
  exists (env' : list R) (idx' : Z),
    (if guard then
       env0 <- slice_fill env (Some idx) (Some (Z.min (idx + k) n)) s ;;
       Ok (env0, Z.min (idx + k) n)
     else Ok (env, idx)) = Ok (env', idx') /\
    Z.of_nat (length env') = n /\ Forall bounded env' /\ (0 <= idx' <= n)%Z.
Proof.
  intros Hlen Henv Hidx Hk. destruct guard.
  - specialize (Hk eq_refl).
    destruct (@fill_phase bounded env idx (Z.min (idx + k) n) s)
      as (env' & E & L & F); [lia | lia | exact Henv | exact bounded_s |].
    rewrite E. cbn [bind]. exists env', (Z.min (idx + k) n).
    split; [reflexivity |]. split; [lia |]. split; [exact F | lia].
  - exists env, idx. auto.
Qed.

Lemma synths_adsr_bounded (n : Z) (attack decay release : Q) :
  (0 <= n)%Z ->
  exists env : list R,
    Synths.adsr_envelope n attack decay s release SAMPLE_RATE = Ok env /\
    Z.of_nat (length env) = n /\ Forall bounded env.
Proof.
  intros Hn. unfold Synths.adsr_envelope.
  set (A := py_int (attack * SAMPLE_RATE)).
  set (D := py_int (decay * SAMPLE_RATE)).
  set (Rl := py_int (release * SAMPLE_RATE)).
  rewrite np_zeros_ok by exact Hn. cbn [bind]. cbv zeta.
  assert (L0 : Z.of_nat (length (repeat 0 (Z.to_nat n))) = n)
    by (rewrite repeat_length; lia).
  destruct (@synths_ramp_phase (repeat 0 (Z.to_nat n)) 0 n A 0 1 (A >? 0)%Z)
    as (env1 & idx1 & E1 & L1 & F1 & I1);
    [exact L0 | apply bounded_zeros | lia | lia | apply bounded_0 | apply bounded_1 |].
  rewrite E1. cbn [bind].
  destruct (@synths_ramp_phase env1 idx1 n D 1 s ((idx1 <? n)%Z && (D >? 0)%Z))
    as (env2 & idx2 & E2 & L2 & F2 & I2);
    [exact L1 | exact F1 | exact I1 | intros G; apply andb_prop in G; lia
     | apply bounded_1 | apply bounded_s |].
  rewrite E2. cbn [bind].
  destruct (@synths_fill_phase env2 idx2 n (Z.max 0 (n - A - D - Rl))
              ((idx2 <? n)%Z && (Z.max 0 (n - A - D - Rl) >? 0)%Z))
    as (env3 & idx3 & E3 & L3 & F3 & I3);
    [exact L2 | exact F2 | exact I2 | intros G; apply andb_prop in G; lia |].
  rewrite E3. cbn [bind].
  destruct (Z.ltb_spec idx3 n) as [Hrel | Hdone].
  - rewrite np_linspace_ok by lia. cbn [bind].
    destruct (@assign_tail_phase bounded env3
                (linspace s 0 (Z.to_nat (n - idx3))) idx3)
      as (env4 & E4 & L4 & F4);
      [lia | rewrite linspace_length; lia | exact F3
       | apply bounded_ramp; auto using bounded_s, bounded_0 |].
    rewrite E4. exists env4. split; [reflexivity |]. split; [lia | exact F4].
  - exists env3. auto.
Qed.

End EnvelopeBounds.

(** C8.  For a non-negative sample count, non-negative attack, decay and
    release times and a sustain level in [0, 1], both envelope generators
    return a buffer of exactly the requested length, every sample of which
    is at least 0 and at most [max(1, sustain_level)]. *)
Theorem adsr_length_and_bounds (n : Z) (attack decay : Q) (s : R) (release : Q) :
  (0 <= n)%Z -> (0 <= attack)%Q -> (0 <= decay)%Q -> (0 <= release)%Q ->
  (0 <= s <= 1)%R ->
  (exists env : list R,
      Bass.adsr_envelope n attack decay s release SAMPLE_RATE = Ok env /\
      Z.of_nat (length env) = n /\
      Forall (fun x => 0 <= x <= Rmax 1 s)%R env) /\
  (exists env : list R,
      Synths.adsr_envelope n attack decay s release SAMPLE_RATE = Ok env /\
      Z.of_nat (length env) = n /\
      Forall (fun x => 0 <= x <= Rmax 1 s)%R env).
Proof.
  intros Hn Ha Hd Hr Hs. split.
  - now apply bass_adsr_bounded.
  - now apply synths_adsr_bounded.
Qed.

Lemma adsr_length_and_bounds_witness :
  (exists env : list R,
      Bass.adsr_default 22050 = Ok env /\ Z.of_nat (length env) = 22050%Z) /\
  (exists env : list R,
      Synths.adsr_default 22050 = Ok env /\ Z.of_nat (length env) = 22050%Z).
Proof.
  assert (Hn : (0 <= 22050)%Z) by (vm_compute; congruence).
  assert (H1 : (0 <= 0.01)%Q) by (vm_compute; congruence).
  assert (H2 : (0 <= 0.05)%Q) by (vm_compute; congruence).
  assert (H3 : (0 <= 0.1)%Q) by (vm_compute; congruence).
  assert (Hs : (0 <= 0.7 <= 1)%R) by lra.
  destruct (@adsr_length_and_bounds 22050 0.01 0.05 0.7%R 0.1 Hn H1 H2 H3 Hs)
    as ((e1 & Hb & Lb & _) & _).
  destruct (@adsr_length_and_bounds 22050 0.01 0.1 0.7%R 0.1 Hn H1 H3 H3 Hs)
    as (_ & (e2 & Hy & Ly & _)).
  split; [exists e1 | exists e2]; split; assumption.
Defined.

(** ** Peak normalisation (all three files) *)

Section Normalisation.

Local Open Scope R_scope.

Lemma peak_of_zeros (n : nat) : np_max_abs (repeat 0 (S n)) = Ok 0.
Proof.
  cbn [repeat np_max_abs]. rewrite Rabs_R0. f_equal.
  induction n as [| n IH]; [reflexivity |].
  cbn [repeat map fold_left]. rewrite Rabs_R0.
  unfold Rmax at 2. destruct (Rle_dec 0 0); exact IH.
Qed.

Lemma int16_0 : int16 (0 * 32767) = 0%Z.
Proof.
  unfold int16, trunc. rewrite Rmult_0_l.
  destruct (Rle_dec 0 0) as [_ | H]; [| lra].
  replace (Zfloor 0) with 0%Z by (symmetry; apply Zfloor_eq; simpl; lra).
  reflexivity.
Qed.

Lemma peak_of_single (x : R) : 0 <= x -> np_max_abs [x] = Ok x.
Proof. intros H. cbn. now rewrite Rabs_pos_eq. Qed.

End Normalisation.

(** C7, as the code has it.  For a buffer whose peak absolute amplitude is
    2.0, [save_wav] of [generate_synths.py] multiplies every sample by
    exactly 0.35 before the 16-bit conversion; the epsilon-guarded
    normalisation of [generate_bass.py] to the same ceiling 0.7 computes
    [x / (2 + 1e-9) * 0.7] instead. *)
Theorem normalize_peak_two (audio : list R) :
  np_max_abs audio = Ok 2%R ->
  Synths.normalize_peak audio = Ok (map (fun x => x * 0.35)%R audio) /\
  Synths.save_wav audio = Ok (map (fun x => int16 (x * 0.35 * 32767)) audio) /\
  Bass.normalize audio 0.7 = Ok (map (fun x => x / (2 + 1e-9) * 0.7)%R audio).
Proof.
  intros Hpeak.
  assert (Hn : Synths.normalize_peak audio = Ok (map (fun x => x * 0.35)%R audio)).
  { unfold Synths.normalize_peak. rewrite Hpeak. cbn [bind].
    destruct (Rlt_dec 0 2) as [_ | H]; [| lra].
    unfold vscale. now replace (0.7 / 2)%R with 0.35%R by lra. }
  split; [exact Hn |]. split.
  - unfold Synths.save_wav. rewrite Hn. cbn [bind]. now rewrite map_map.
  - unfold Bass.normalize. rewrite Hpeak. cbn [bind].
    unfold vscale. now rewrite map_map.
Qed.

Lemma normalize_peak_two_witness :
  Synths.normalize_peak [1; -2]%R = Ok [1 * 0.35; -2 * 0.35]%R.
Proof.
  refine (proj1 (@normalize_peak_two [1; -2]%R _)).
  cbn [np_max_abs map fold_left]. f_equal.
  rewrite Rabs_pos_eq by lra. rewrite Rabs_left by lra.
  unfold Rmax. destruct (Rle_dec 1 (- -2)); lra.
Defined.

(** C7 as stated fails for the normalisation of [generate_bass.py]: a
    sample 2.0 of a buffer with peak 2.0 becomes [2 / (2 + 1e-9) * 0.7],
    which is below [2 * 0.35]. *)
Lemma bass_normalize_is_not_exact :
  np_max_abs [2%R] = Ok 2%R /\
  Bass.normalize [2%R] 0.7 = Ok [(2 / (2 + 1e-9) * 0.7)%R] /\
  (2 / (2 + 1e-9) * 0.7 < 2 * 0.35)%R.
Proof.
  assert (Hpeak : np_max_abs [2%R] = Ok 2%R) by (apply peak_of_single; lra).
  split; [exact Hpeak |]. split.
  - unfold Bass.normalize. rewrite Hpeak. reflexivity.
  - apply (Rmult_lt_reg_r (2 + 1e-9)%R); [lra |].
    field_simplify; lra.
Qed.

(** C9, as the code has it.  Normalising a non-empty all-zero buffer does
    not raise and gives an all-zero buffer of the same length: in
    [generate_bass.py] through the epsilon in the denominator, in
    [generate_drums.py] and [generate_synths.py] because the scaling is
    skipped unless the peak is positive. *)
Theorem normalize_all_zero (n : nat) (volume : R) :
  Bass.normalize (repeat 0%R (S n)) volume = Ok (repeat 0%R (S n)) /\
  Drums.normalize_and_convert (repeat 0%R (S n)) = Ok (repeat 0%Z (S n)) /\
  Synths.normalize_peak (repeat 0%R (S n)) = Ok (repeat 0%R (S n)) /\
  Synths.save_wav (repeat 0%R (S n)) = Ok (repeat 0%Z (S n)).
Proof.
  assert (Hs : Synths.normalize_peak (repeat 0%R (S n)) = Ok (repeat 0%R (S n))).
  { unfold Synths.normalize_peak. rewrite peak_of_zeros. cbn [bind].
    destruct (Rlt_dec 0 0) as [H | _]; [lra | reflexivity]. }
  split; [| split; [| split; [exact Hs |]]].
  - unfold Bass.normalize. rewrite peak_of_zeros. cbn [bind].
    unfold vscale. rewrite !map_repeat. do 2 f_equal.
    unfold Rdiv. ring.
  - unfold Drums.normalize_and_convert. rewrite peak_of_zeros. cbn [bind].
    destruct (Rlt_dec 0 0) as [H | _]; [lra |].
    now rewrite map_repeat, int16_0.
  - unfold Synths.save_wav. rewrite Hs. cbn [bind].
    now rewrite map_repeat, int16_0.
Qed.

(** C9 as stated fails for the empty buffer, which is all-zero too: the
    peak reduction [np.max] raises on it in all three normalisations. *)
Lemma normalize_empty_raises :
  Bass.normalize [] 0.7 = Raise ValueError /\
  Drums.normalize_and_convert [] = Raise ValueError /\
  Synths.save_wav [] = Raise ValueError.
Proof. repeat split. Qed.

Section Noise.
Import Drums.
Local Open Scope R_scope.

Lemma times_cons (d sr : Q) (p : positive) :
  py_int (sr * d) = Z.pos p ->
  exists (m : nat) (rest : list R),
    times d sr = Ok (0 :: rest) /\ length rest = m /\ Pos.to_nat p = S m.
Proof.
  intros Hn. unfold times, np_linspace_open. rewrite Hn.
  cbn [Z.ltb Z.compare Z.to_nat].
  destruct (Pos2Nat.is_succ p) as [m Hm]. rewrite Hm.
  exists m. eexists. split; [| split; [| reflexivity]].
  - unfold linspace_open. cbn [seq map]. f_equal. f_equal.
    simpl INR. ring.
  - now rewrite length_map, length_seq.
Qed.

Lemma snare_first_sample (d sr : Q) (p : positive) (g : rng) :
  py_int (sr * d) = Z.pos p ->
  exists (buf : list R) (g' : rng),
    generate_snare d sr g = Ok (buf, g') /\ nth 0 buf 0 = 0.6 * g 0%nat.
Proof.
  intros Hn. destruct (@times_cons d sr p Hn) as (m & rest & Ht & Hlen & _).
  unfold generate_snare, mbind, lift. rewrite Ht. cbn [bind fst snd].
  unfold randn. cbn [length seq map].
  do 2 eexists. split; [reflexivity |].
  unfold vadd, vmul, vscale, vmap2. cbn [combine map nth fst snd].
  rewrite sin_eq_0_1 by (exists 0%Z; ring).
  replace (- 0 * 40) with 0 by ring. replace (- 0 * 50) with 0 by ring.
  rewrite exp_0. ring.
Qed.

Lemma hihat_first_sample (decay : R) (d sr : Q) (p : positive) (g : rng) :
  py_int (sr * d) = Z.pos p ->
  exists (buf : list R) (g' : rng),
    hihat decay d sr g = Ok (buf, g') /\ nth 0 buf 0 = g 0%nat.
Proof.
  intros Hn. destruct (@times_cons d sr p Hn) as (m & rest & Ht & Hlen & _).
  unfold hihat, mbind, lift. rewrite Ht. cbn [bind fst snd].
  unfold randn. cbn [length seq map].
  do 2 eexists. split; [reflexivity |].
  unfold diff_prepend0, vmul, vmap2. cbn [diff_from combine map nth fst snd].
  replace (- 0 * decay) with 0 by ring.
  rewrite exp_0. ring.
Qed.

Lemma lift_ignores_rng (A : Type) (r : result A) (g1 g2 : rng) :
  output (lift r g1) = output (lift r g2).
Proof. unfold output, lift. now destruct r. Qed.

Lemma randn_same_draws (n : nat) (g1 g2 : rng) :
  (forall k : nat, g1 k = g2 k) -> fst (randn n g1) = fst (randn n g2).
Proof. intros H. unfold randn. cbn [fst]. apply map_ext. intros k. apply H. Qed.

Lemma snare_same_draws (d sr : Q) (g1 g2 : rng) :
  (forall k : nat, g1 k = g2 k) ->
  output (generate_snare d sr g1) = output (generate_snare d sr g2).
Proof.
  intros H. unfold output, generate_snare, mbind, lift.
  destruct (times d sr) as [t | e]; [| reflexivity].
  cbn [bind fst snd].
  pose proof (@randn_same_draws (length t) g1 g2 H) as Hd.
  unfold randn in *. cbn [fst] in Hd. cbn [bind fst]. now rewrite Hd.
Qed.

Lemma hihat_same_draws (decay : R) (d sr : Q) (g1 g2 : rng) :
  (forall k : nat, g1 k = g2 k) ->
  output (hihat decay d sr g1) = output (hihat decay d sr g2).
Proof.
  intros H. unfold output, hihat, mbind, lift.
  destruct (times d sr) as [t | e]; [| reflexivity].
  cbn [bind fst snd].
  pose proof (@randn_same_draws (length t) g1 g2 H) as Hd.
  unfold randn in *. cbn [fst] in Hd. cbn [bind fst]. now rewrite Hd.
Qed.

End Noise.

(** C4, as the code has it.  The oscillators and the kick never read the
    random generator: they return the same buffer in every generator
    state.  The snare and the two hi-hats draw white noise from numpy's
    global, unseeded generator: their buffer is a function of the
    parameters and of the draws, and it does depend on the draws (the first
    sample of a snare is 0.6 times the first draw, that of a hi-hat is the
    first draw). *)
Theorem synthesis_determinism :
  (forall (f : R) (d sr : Q) (g1 g2 : Drums.rng),
      Drums.output (Drums.lift (Bass.sawtooth_wave f d sr) g1)
      = Drums.output (Drums.lift (Bass.sawtooth_wave f d sr) g2) /\
      Drums.output (Drums.ret (Synths.saw_wave f d sr) g1)
      = Drums.output (Drums.ret (Synths.saw_wave f d sr) g2) /\
      Drums.output (Drums.ret (Synths.square_wave f d sr) g1)
      = Drums.output (Drums.ret (Synths.square_wave f d sr) g2) /\
      Drums.output (Drums.generate_kick d sr g1)
      = Drums.output (Drums.generate_kick d sr g2)) /\
  (forall (d sr : Q) (g1 g2 : Drums.rng),
      (forall k : nat, g1 k = g2 k) ->
      Drums.output (Drums.generate_snare d sr g1)
      = Drums.output (Drums.generate_snare d sr g2) /\
      Drums.output (Drums.generate_hihat_closed d sr g1)
      = Drums.output (Drums.generate_hihat_closed d sr g2) /\
      Drums.output (Drums.generate_hihat_open d sr g1)
      = Drums.output (Drums.generate_hihat_open d sr g2)) /\
  (forall g : Drums.rng,
      (exists (buf : list R) (g' : Drums.rng),
          Drums.generate Drums.Snare g = Ok (buf, g') /\
          nth 0 buf 0%R = (0.6 * g 0%nat)%R) /\
      (exists (buf : list R) (g' : Drums.rng),
          Drums.generate Drums.HihatClosed g = Ok (buf, g') /\
          nth 0 buf 0%R = g 0%nat) /\
      (exists (buf : list R) (g' : Drums.rng),
          Drums.generate Drums.HihatOpen g = Ok (buf, g') /\
          nth 0 buf 0%R = g 0%nat)).
Proof.
  split; [| split].
  - intros f d sr g1 g2. repeat split; try reflexivity;
      apply lift_ignores_rng.
  - intros d sr g1 g2 H. repeat split.
    + now apply snare_same_draws.
    + now apply hihat_same_draws.
    + now apply hihat_same_draws.
  - intros g. repeat split.
    + apply (@snare_first_sample 0.12 SAMPLE_RATE 5292). reflexivity.
    + apply (@hihat_first_sample 100 0.04 SAMPLE_RATE 1764). reflexivity.
    + apply (@hihat_first_sample 20 0.12 SAMPLE_RATE 5292). reflexivity.
Qed.

(** C4 as stated fails for the snare (and the hi-hats): with identical
    parameters, a run that draws zeros starts with the sample 0 and a run
    that draws ones starts with the sample 0.6. *)
Lemma snare_is_not_deterministic :
  exists (b0 b1 : list R) (g0 g1 : Drums.rng),
    Drums.generate_snare 0.12 SAMPLE_RATE (fun _ => 0%R) = Ok (b0, g0) /\
    Drums.generate_snare 0.12 SAMPLE_RATE (fun _ => 1%R) = Ok (b1, g1) /\
    nth 0 b0 0%R = 0%R /\ nth 0 b1 0%R = 0.6%R.
Proof.
  destruct (@snare_first_sample 0.12 SAMPLE_RATE 5292 (fun _ => 0%R) eq_refl)
    as (b0 & g0 & H0 & S0).
  destruct (@snare_first_sample 0.12 SAMPLE_RATE 5292 (fun _ => 1%R) eq_refl)
    as (b1 & g1 & H1 & S1).
  exists b0, b1, g0, g1. repeat split; try assumption.
  - rewrite S0. ring.
  - rewrite S1. ring.
Qed.

(** ** Parameter checks of the oscillators *)

Lemma py_int_le_0 (x : Q) : (x <= 0)%Q -> (py_int x <= 0)%Z.
Proof.
  intros H. rewrite (py_int_neg H).
  assert (Hneg : (0 <= - x)%Q).
  { apply (Qopp_le_compat x 0) in H. exact H. }
  pose proof (Qfloor_resp_le _ _ Hneg) as Hf.
  change (Qfloor 0) with 0%Z in Hf. lia.
Qed.

(** C5, as the code has it.  The oscillators validate nothing and know no
    InvalidParameter kind.  The frequency is never looked at: whatever
    its sign, [sawtooth_wave] returns normally as soon as the sample count
    [int(sample_rate * duration)] is not negative, with that many samples.
    A zero sample count silently gives an empty buffer.  A negative one
    makes [sawtooth_wave] raise numpy's [ValueError]; [saw_wave] and
    [square_wave] return an empty buffer for every non-positive duration. *)
Theorem oscillators_do_not_validate (f : R) (d : Q) :
  ((0 <= py_int (SAMPLE_RATE * d))%Z ->
     exists t wave : list R,
       Bass.sawtooth_wave f d SAMPLE_RATE = Ok (t, wave) /\
       length wave = Z.to_nat (py_int (SAMPLE_RATE * d))) /\
  (py_int (SAMPLE_RATE * d) = 0%Z ->
     Bass.sawtooth_wave f d SAMPLE_RATE = Ok ([], [])) /\
  ((py_int (SAMPLE_RATE * d) < 0)%Z ->
     Bass.sawtooth_wave f d SAMPLE_RATE = Raise ValueError) /\
  ((d <= 0)%Q ->
     Synths.saw_wave f d SAMPLE_RATE = [] /\
     Synths.square_wave f d SAMPLE_RATE = []).
Proof.
  unfold Bass.sawtooth_wave, np_linspace_open.
  split; [| split; [| split]].
  - intros H.
    destruct (Z.ltb_spec (py_int (SAMPLE_RATE * d)) 0) as [Hneg | _]; [lia |].
    cbn [bind]. do 2 eexists. split; [reflexivity |].
    now rewrite length_map, linspace_open_length.
  - intros H. rewrite H. reflexivity.
  - intros H.
    destruct (Z.ltb_spec (py_int (SAMPLE_RATE * d)) 0) as [_ | Hge]; [| lia].
    reflexivity.
  - intros H.
    assert (Hn : (py_int (d * SAMPLE_RATE) <= 0)%Z).
    { apply py_int_le_0.
      setoid_replace 0%Q with (0 * SAMPLE_RATE)%Q by reflexivity.
      apply Qmult_le_compat_r; [exact H | vm_compute; congruence]. }
    unfold Synths.saw_wave, Synths.square_wave, Synths.times, np_arange.
    replace (Z.to_nat (py_int (d * SAMPLE_RATE))) with 0%nat by lia.
    split; reflexivity.
Qed.

(** C5 as stated fails: a zero duration with a zero frequency silently
    gives an empty buffer, and a negative frequency with a positive
    duration is rendered like any other. *)
Lemma oscillators_accept_bad_parameters :
  Bass.sawtooth_wave 0%R 0 SAMPLE_RATE = Ok ([], []) /\
  Synths.saw_wave 0%R 0 SAMPLE_RATE = [] /\
  is_ok (Bass.sawtooth_wave (-440)%R 0.5 SAMPLE_RATE) = true /\
  Z.of_nat (length (Synths.saw_wave (-440)%R 0.5 SAMPLE_RATE)) = 22050%Z.
Proof.
  split; [reflexivity |]. split; [reflexivity |]. split; [reflexivity |].
  unfold Synths.saw_wave, Synths.times.
  now rewrite !length_map, np_arange_length.
Qed.

(** ** The drum voices: sizes, failures, amplitude *)

Section Voices.

Import Drums.
Local Open Scope R_scope.

Lemma times_ok (d sr : Q) :
  (0 <= py_int (sr * d))%Z ->
  times d sr = Ok (linspace_open 0 (Q2R d) (Z.to_nat (py_int (sr * d)))).
Proof.
  intros H. unfold times, np_linspace_open.
  destruct (Z.ltb_spec (py_int (sr * d)) 0); [lia | reflexivity].
Qed.

Lemma times_raises (d sr : Q) :
  (py_int (sr * d) < 0)%Z -> times d sr = Raise ValueError.
Proof.
  intros H. unfold times, np_linspace_open.
  destruct (Z.ltb_spec (py_int (sr * d)) 0); [reflexivity | lia].
Qed.

Lemma cumsum_from_length (acc : R) (l : list R) :
  length (cumsum_from acc l) = length l.
Proof.
  revert acc. induction l as [| x l IH]; intros acc; simpl; [reflexivity |].
  now rewrite IH.
Qed.

Lemma diff_from_length (prev : R) (l : list R) :
  length (diff_from prev l) = length l.
Proof.
  revert prev. induction l as [| x l IH]; intros prev; simpl; [reflexivity |].
  now rewrite IH.
Qed.

Lemma vmap2_Forall (Pa Pb Pc : R -> Prop) (f : R -> R -> R) (a b : list R) :
  (forall x y : R, Pa x -> Pb y -> Pc (f x y)) ->
  Forall Pa a -> Forall Pb b -> Forall Pc (vmap2 f a b).
Proof.
  intros Hf Ha. revert b. induction Ha as [| x a Hx Ha IH]; intros b Hb.
  - constructor.
  - destruct Hb as [| y b Hy Hb]; [constructor |].
    unfold vmap2. cbn [combine map fst snd]. constructor; [now apply Hf |].
    now apply IH.
Qed.

(** The part of the kick that can fail: writing the click into its
    buffer.  The slice of the click buffer and the slice of the sample
    times have the same bounds, so the assignment always fits. *)
Lemma kick_click_fits (t : list R) (click_len : Z) (f h : R -> R) :
  slice_assign (repeat 0 (length t)) None (Some click_len)
    (vmul (map f (py_slice t None (Some click_len)))
          (map h (py_slice t None (Some click_len))))
  = Ok (vmul (map f (py_slice t None (Some click_len)))
             (map h (py_slice t None (Some click_len)))
        ++ skipn (slice_index (length t) click_len) (repeat 0 (length t))).
Proof.
  assert (Hs : length (py_slice t None (Some click_len))
               = slice_index (length t) click_len).
  { unfold py_slice, slice_lo, slice_hi.
    rewrite Nat.sub_0_r, skipn_O, length_firstn.
    pose proof (slice_index_le (length t) click_len). lia. }
  rewrite slice_assign_exact.
  - unfold slice_lo, slice_hi. rewrite repeat_length. reflexivity.
  - unfold slice_lo, slice_hi, vmul.
    rewrite repeat_length, vmap2_length, !length_map, Hs. lia.
  - unfold slice_hi. rewrite repeat_length. apply slice_index_le.
Qed.

Lemma exp_nonpos_le_1 (x : R) : x <= 0 -> exp x <= 1.
Proof.
  intros [H | ->]; [| rewrite exp_0; lra].
  rewrite <- exp_0. now apply Rlt_le, exp_increasing.
Qed.

Lemma sin_times_decay_range (a x k : R) :
  0 <= x -> 0 <= k -> -1 <= sin a * exp (- x * k) <= 1.
Proof.
  intros Hx Hk.
  pose proof (SIN_bound a) as [Hlo Hhi].
  pose proof (exp_pos (- x * k)) as Hpos.
  assert (Hle : exp (- x * k) <= 1) by (apply exp_nonpos_le_1; nra).
  split; nra.
Qed.

Lemma linspace_open_nonneg (stop : R) (n : nat) :
  0 <= stop -> Forall (fun x => 0 <= x) (linspace_open 0 stop n).
Proof.
  intros Hs. unfold linspace_open. apply Forall_map, Forall_forall.
  intros i Hi. apply in_seq in Hi.
  assert (Hn : 0 < INR n) by (apply lt_0_INR; lia).
  assert (Hi' : 0 <= INR i) by apply pos_INR.
  assert (Hstep : 0 <= (stop - 0) / INR n).
  { apply Rmult_le_pos; [lra |]. now apply Rlt_le, Rinv_0_lt_compat. }
  nra.
Qed.

Lemma Forall_py_slice (P : R -> Prop) (l : list R) (lo hi : option Z) :
  Forall P l -> Forall P (py_slice l lo hi).
Proof. intros H. unfold py_slice. now apply Forall_firstn, Forall_skipn. Qed.

(** What [generate_kick] computes when the sample count is not negative. *)
Lemma kick_run (d sr : Q) (g : rng) :
  (0 <= py_int (sr * d))%Z ->
  exists buf : list R,
    generate_kick d sr g = Ok (buf, g) /\
    length buf = Z.to_nat (py_int (sr * d)) /\
    ((0 <= d)%Q -> Forall (fun x => -1 <= x <= 1) buf).
Proof.
  intros Hn. unfold generate_kick, lift. rewrite (times_ok _ _ Hn). cbn [bind].
  set (t := linspace_open 0 (Q2R d) (Z.to_nat (py_int (sr * d)))).
  assert (Ht : length t = Z.to_nat (py_int (sr * d))) by apply linspace_open_length.
  set (phase := map (fun c => 2 * PI * c / Q2R sr) _).
  assert (Hphase : length phase = length t).
  { unfold phase, cumsum. now rewrite length_map, cumsum_from_length, length_map. }
  set (kick := vmul (map sin phase) (map (fun ti => exp (- ti * 30)) t)).
  assert (Hkick : length kick = length t).
  { unfold kick, vmul. rewrite vmap2_length, !length_map, Hphase. lia. }
  rewrite Hkick, kick_click_fits. cbn [bind].
  set (click := _ ++ _).
  assert (Hclick : length click = length t).
  { unfold click, vmul.
    rewrite length_app, vmap2_length, !length_map, length_skipn, repeat_length.
    unfold py_slice, slice_lo, slice_hi.
    rewrite Nat.sub_0_r, skipn_O, length_firstn.
    pose proof (slice_index_le (length t) (py_int (0.005 * sr))). lia. }
  eexists. split; [reflexivity |]. split.
  - unfold vadd. rewrite vmap2_length, !vscale_length, Hkick, Hclick. lia.
  - intros Hd.
    assert (HD : 0 <= Q2R d).
    { rewrite <- RMicromega.Q2R_0. now apply Qle_Rle. }
    assert (Htpos : Forall (fun x => 0 <= x) t)
      by (now apply linspace_open_nonneg).
    assert (Fk : Forall (fun x => -1 <= x <= 1) kick).
    { unfold kick, vmul, vmap2. apply Forall_map, Forall_forall.
      intros [x y] Hin. cbn [fst snd].
      apply in_combine_r in Hin as Hy. apply in_combine_l in Hin as Hx.
      apply in_map_iff in Hx as (a & <- & _).
      apply in_map_iff in Hy as (ti & <- & Hti).
      rewrite Forall_forall in Htpos.
      apply sin_times_decay_range; [now apply Htpos | lra]. }
    assert (Fc : Forall (fun x => -1 <= x <= 1) click).
    { unfold click. apply Forall_app. split.
      - unfold vmul, vmap2. apply Forall_map, Forall_forall.
        intros [x y] Hin. cbn [fst snd].
        apply in_combine_r in Hin as Hy. apply in_combine_l in Hin as Hx.
        apply in_map_iff in Hx as (a & <- & _).
        apply in_map_iff in Hy as (ti & <- & Hti).
        pose proof (@Forall_py_slice _ t None (Some (py_int (0.005 * sr))) Htpos)
          as Hs.
        rewrite Forall_forall in Hs.
        apply sin_times_decay_range; [now apply Hs | lra].
      - apply Forall_skipn, Forall_forall. intros x Hx.
        apply repeat_spec in Hx. subst. lra. }
    unfold vadd.
    apply (@vmap2_Forall (fun x => -0.85 <= x <= 0.85)
                         (fun x => -0.15 <= x <= 0.15)); [intros; lra | |].
    + unfold vscale. apply Forall_map.
      eapply Forall_impl; [| exact Fk]. cbv beta. intros; lra.
    + unfold vscale. apply Forall_map.
      eapply Forall_impl; [| exact Fc]. cbv beta. intros; lra.
Qed.

Lemma snare_run (d sr : Q) (g : rng) :
  (0 <= py_int (sr * d))%Z ->
  exists buf : list R,
    generate_snare d sr g
    = Ok (buf, fun k => g (Z.to_nat (py_int (sr * d)) + k)%nat) /\
    length buf = Z.to_nat (py_int (sr * d)).
Proof.
  intros Hn. unfold generate_snare, mbind, lift.
  rewrite (times_ok _ _ Hn). cbn [bind fst snd].
  rewrite linspace_open_length. unfold randn.
  eexists. split; [reflexivity |].
  unfold vadd, vmul.
  rewrite vmap2_length, !vscale_length, !vmap2_length, !length_map,
    length_seq, linspace_open_length. lia.
Qed.

Lemma hihat_run (decay : R) (d sr : Q) (g : rng) :
  (0 <= py_int (sr * d))%Z ->
  exists buf : list R,
    hihat decay d sr g
    = Ok (buf, fun k => g (Z.to_nat (py_int (sr * d)) + k)%nat) /\
    length buf = Z.to_nat (py_int (sr * d)).
Proof.
  intros Hn. unfold hihat, mbind, lift.
  rewrite (times_ok _ _ Hn). cbn [bind fst snd].
  rewrite linspace_open_length. unfold randn.
  eexists. split; [reflexivity |].
  unfold vmul, diff_prepend0.
  rewrite vmap2_length, diff_from_length, !length_map,
    length_seq, linspace_open_length. lia.
Qed.

Lemma noise_voice_raises (d sr : Q) (g : rng) :
  (py_int (sr * d) < 0)%Z ->
  generate_snare d sr g = Raise ValueError /\
  (forall decay : R, hihat decay d sr g = Raise ValueError).
Proof.
  intros Hn. unfold generate_snare, hihat, mbind, lift.
  rewrite (times_raises _ _ Hn). split; [reflexivity | intros; reflexivity].
Qed.

Lemma kick_raises (d sr : Q) (g : rng) :
  (py_int (sr * d) < 0)%Z -> generate_kick d sr g = Raise ValueError.
Proof.
  intros Hn. unfold generate_kick, lift. now rewrite (times_raises _ _ Hn).
Qed.

End Voices.

(** X1.  [generate_kick] with a non-negative sample count
    [int(sample_rate * duration)] returns that many samples and does not
    touch the random generator; with a non-negative duration every sample
    lies in [-1, 1].  A negative sample count raises numpy's [ValueError]. *)
Theorem kick_size_and_amplitude (d sr : Q) (g : Drums.rng) :
  ((0 <= py_int (sr * d))%Z ->
     exists buf : list R,
       Drums.generate_kick d sr g = Ok (buf, g) /\
       length buf = Z.to_nat (py_int (sr * d)) /\
       ((0 <= d)%Q -> Forall (fun x => -1 <= x <= 1)%R buf)) /\
  ((py_int (sr * d) < 0)%Z -> Drums.generate_kick d sr g = Raise ValueError).
Proof. split; [apply kick_run | apply kick_raises]. Qed.

Lemma kick_size_and_amplitude_witness :
  (exists buf : list R,
     Drums.generate_kick 0.15 SAMPLE_RATE (fun _ => 0%R) = Ok (buf, fun _ => 0%R) /\
     Z.of_nat (length buf) = 6615%Z /\
     Forall (fun x => -1 <= x <= 1)%R buf) /\
  Drums.generate_kick (-0.15) SAMPLE_RATE (fun _ => 0%R) = Raise ValueError.
Proof.
  destruct (@kick_size_and_amplitude 0.15 SAMPLE_RATE (fun _ => 0%R)) as [Hrun _].
  destruct (@kick_size_and_amplitude (-0.15) SAMPLE_RATE (fun _ => 0%R)) as [_ Hfail].
  split.
  - destruct Hrun as (buf & E & L & F); [vm_compute; congruence |].
    exists buf. split; [exact E |]. split.
    + rewrite L. reflexivity.
    + apply F. vm_compute; congruence.
  - apply Hfail. vm_compute. reflexivity.
Defined.


(** X2.  The snare and the two hi-hats with a non-negative sample count
    [n = int(sample_rate * duration)] return [n] samples and consume
    exactly the next [n] draws of the random generator; a negative sample
    count raises numpy's [ValueError] before anything is drawn. *)
Theorem noise_voices_size_and_draws (d sr : Q) (g : Drums.rng) :
  let n := Z.to_nat (py_int (sr * d)) in
  ((0 <= py_int (sr * d))%Z ->
     (exists buf : list R,
        Drums.generate_snare d sr g = Ok (buf, fun k => g (n + k)%nat) /\
        length buf = n) /\
     (exists buf : list R,
        Drums.generate_hihat_closed d sr g = Ok (buf, fun k => g (n + k)%nat) /\
        length buf = n) /\
     (exists buf : list R,
        Drums.generate_hihat_open d sr g = Ok (buf, fun k => g (n + k)%nat) /\
        length buf = n)) /\
  ((py_int (sr * d) < 0)%Z ->
     Drums.generate_snare d sr g = Raise ValueError /\
     Drums.generate_hihat_closed d sr g = Raise ValueError /\
     Drums.generate_hihat_open d sr g = Raise ValueError).
Proof.
  intros n. split.
  - intros Hn. repeat split.
    + now apply snare_run.
    + now apply hihat_run.
    + now apply hihat_run.
  - intros Hn. destruct (@noise_voice_raises d sr g Hn) as [Hs Hh].
    repeat split; [exact Hs | apply Hh | apply Hh].
Qed.

Lemma noise_voices_size_and_draws_witness :
  (exists buf : list R,
     Drums.generate_snare 0.12 SAMPLE_RATE INR
     = Ok (buf, fun k => INR (Z.to_nat 5292 + k)) /\
     Z.of_nat (length buf) = 5292%Z) /\
  Drums.generate_hihat_closed (-0.04) SAMPLE_RATE INR = Raise ValueError.
Proof.
  destruct (@noise_voices_size_and_draws 0.12 SAMPLE_RATE INR) as [Hrun _].
  destruct (@noise_voices_size_and_draws (-0.04) SAMPLE_RATE INR) as [_ Hfail].
  split.
  - destruct Hrun as ((buf & E & L) & _); [vm_compute; congruence |].
    exists buf. split; [exact E |]. rewrite L. reflexivity.
  - apply Hfail. vm_compute. reflexivity.
Defined.


(** ** Peaks and the 16-bit conversion *)

Section Peaks.

Local Open Scope R_scope.

Lemma fold_Rmax_spec (l : list R) (acc : R) :
  acc <= fold_left Rmax l acc /\
  Forall (fun x => x <= fold_left Rmax l acc) l /\
  (fold_left Rmax l acc = acc \/ In (fold_left Rmax l acc) l).
Proof.
  revert acc. induction l as [| x l IH]; intros acc; cbn [fold_left].
  - split; [lra |]. split; [constructor | now left].
  - destruct (IH (Rmax acc x)) as (Hacc & Hall & Hin).
    pose proof (Rmax_l acc x). pose proof (Rmax_r acc x).
    split; [lra |]. split.
    + constructor; [lra | exact Hall].
    + destruct Hin as [E | Hin]; [| right; now right].
      rewrite E. unfold Rmax. destruct (Rle_dec acc x); [right; now left | now left].
Qed.

(** [np.max(np.abs(a))] is an upper bound of the magnitudes, is attained,
    and is not negative. *)
Lemma np_max_abs_spec (a : list R) (p : R) :
  np_max_abs a = Ok p ->
  Forall (fun x => Rabs x <= p) a /\ Exists (fun x => Rabs x = p) a /\ 0 <= p.
Proof.
  destruct a as [| x xs]; [discriminate |].
  cbn [np_max_abs]. intros E. injection E as <-.
  destruct (fold_Rmax_spec (map Rabs xs) (Rabs x)) as (Hacc & Hall & Hin).
  split; [| split].
  - constructor; [exact Hacc |]. now apply Forall_map in Hall.
  - destruct Hin as [E | Hin].
    + apply Exists_cons_hd. now rewrite E.
    + apply Exists_cons_tl. apply in_map_iff in Hin as (y & Hy & Hiny).
      apply Exists_exists. exists y. now split.
  - pose proof (Rabs_pos x). lra.
Qed.

Lemma np_max_abs_ok (a : list R) :
  a <> [] -> exists p : R, np_max_abs a = Ok p.
Proof. destruct a; [congruence | intros _; eexists; reflexivity]. Qed.

(** Truncation toward zero keeps a value within whole bounds. *)
Lemma trunc_bounds (x : R) (m : Z) :
  (0 <= m)%Z -> - IZR m - 1 < x < IZR m + 1 -> (- m <= trunc x <= m)%Z.
Proof.
  intros Hm [Hlo Hhi]. unfold trunc. destruct (Rle_dec 0 x) as [Hx | Hx].
  - pose proof (Zfloor_bound x) as [Hf1 Hf2]. split.
    + assert ((0 <= Zfloor x)%Z) by (apply Zfloor_lub; simpl; lra). lia.
    + apply Z.lt_succ_r, lt_IZR. rewrite succ_IZR. lra.
  - pose proof (Zfloor_bound (- x)) as [Hf1 Hf2].
    assert ((0 <= Zfloor (- x))%Z) by (apply Zfloor_lub; simpl; lra).
    split; [| lia].
    assert ((Zfloor (- x) < m + 1)%Z); [| lia].
    apply lt_IZR. rewrite plus_IZR. simpl. lra.
Qed.

Lemma trunc_of_whole_part (x : R) (m : Z) :
  (0 <= m)%Z -> IZR m <= x < IZR m + 1 -> trunc x = m /\ trunc (- x) = (- m)%Z.
Proof.
  intros Hm [Hlo Hhi].
  assert (H0 : 0 <= IZR m) by (apply IZR_le in Hm; exact Hm).
  split.
  - unfold trunc. destruct (Rle_dec 0 x); [| lra].
    apply Zfloor_eq. lra.
  - unfold trunc. destruct (Rle_dec 0 (- x)) as [Hneg | Hneg].
    + assert (x = 0) by lra. subst x.
      assert (m = 0%Z).
      { apply eq_IZR. simpl. lra. }
      subst m. rewrite Ropp_0. apply Zfloor_eq. simpl. lra.
    + rewrite Ropp_involutive. f_equal. apply Zfloor_eq. lra.
Qed.

Lemma int16_small (z : Z) :
  (-32768 <= z < 32768)%Z -> ((z + 32768) mod 65536 - 32768 = z)%Z.
Proof. intros H. rewrite Z.mod_small by lia. lia. Qed.

End Peaks.

Section Renderers.

Local Open Scope R_scope.

Lemma unit_ratio (x p : R) : 0 < p -> Rabs x <= p -> -1 <= x / p <= 1.
Proof.
  intros Hp Hx.
  assert (Hb : - p <= x <= p).
  { unfold Rabs in Hx. destruct (Rcase_abs x); lra. }
  assert (Hq : 0 < / p) by now apply Rinv_0_lt_compat.
  assert (E : p * / p = 1) by (apply Rinv_r; lra).
  unfold Rdiv. split; nra.
Qed.

Lemma peak_ratio (x p : R) :
  0 < p -> Rabs x = p -> x / p = 1 \/ x / p = -1.
Proof.
  intros Hp Hx. unfold Rabs in Hx. destruct (Rcase_abs x).
  - right. replace x with (- p) by lra. field. lra.
  - left. subst. field. lra.
Qed.

(** The 16-bit value of a sample times 32767 when the sample is within a
    ceiling [c] whose full-scale value has whole part [m]. *)
Lemma int16_within (y c : R) (m : Z) :
  (0 <= m < 32768)%Z -> IZR m <= c * 32767 < IZR m + 1 ->
  - c <= y <= c ->
  (- m <= int16 (y * 32767) <= m)%Z.
Proof.
  intros Hm Hc Hy. unfold int16.
  assert (Ht : (- m <= trunc (y * 32767) <= m)%Z).
  { apply trunc_bounds; [lia |]. split; nra. }
  rewrite int16_small by lia. exact Ht.
Qed.

Lemma int16_at_ceiling (c : R) (m : Z) :
  (0 <= m < 32768)%Z -> IZR m <= c * 32767 < IZR m + 1 ->
  int16 (c * 32767) = m /\ int16 (- c * 32767) = (- m)%Z.
Proof.
  intros Hm Hc. unfold int16.
  destruct (@trunc_of_whole_part (c * 32767) m) as [Hp Hn]; [lia | exact Hc |].
  replace (- c * 32767) with (- (c * 32767)) by ring.
  rewrite Hp, Hn, !int16_small by lia. now split.
Qed.

End Renderers.

Lemma normalize_and_convert_spec (track : list R) :
  track <> [] ->
  exists (peak : R) (out : list Z),
    np_max_abs track = Ok peak /\
    Drums.normalize_and_convert track = Ok out /\
    length out = length track /\
    Forall (fun z => -29490 <= z <= 29490)%Z out /\
    ((0 < peak)%R -> Exists (fun z => Z.abs z = 29490%Z) out).
Proof.
  intros Hne. destruct (@np_max_abs_ok track Hne) as [p Hp].
  destruct (@np_max_abs_spec track p Hp) as (Hall & Hex & Hp0).
  assert (Hc : (IZR 29490 <= 0.9 * 32767 < IZR 29490 + 1)%R) by lra.
  exists p. unfold Drums.normalize_and_convert. rewrite Hp. cbn [bind].
  destruct (Rlt_dec 0 p) as [Hpos | Hzero].
  - eexists. split; [reflexivity |]. split; [reflexivity |].
    unfold vscale. rewrite !map_map. split; [apply length_map |]. split.
    + apply Forall_map. eapply Forall_impl; [| exact Hall]. cbv beta.
      intros x Hx. apply (@int16_within _ 0.9%R 29490); [lia | exact Hc |].
      pose proof (@unit_ratio x p Hpos Hx). lra.
    + intros _. apply Exists_exists in Hex as (x & Hin & Hx).
      apply Exists_exists. exists (int16 (x / p * 0.9 * 32767)). split.
      * apply in_map_iff. exists x. now split.
      * destruct (@int16_at_ceiling 0.9%R 29490) as [Hhi Hlo]; [lia | exact Hc |].
        destruct (@peak_ratio x p Hpos Hx) as [E | E]; rewrite E.
        -- replace (1 * 0.9 * 32767)%R with (0.9 * 32767)%R by lra.
           now rewrite Hhi.
        -- replace (-1 * 0.9 * 32767)%R with (- (0.9) * 32767)%R by lra.
           now rewrite Hlo.
  - eexists. split; [reflexivity |]. split; [reflexivity |].
    split; [apply length_map |]. split; [| intros Hpos; contradiction].
    apply Forall_map. eapply Forall_impl; [| exact Hall]. cbv beta.
    intros x Hx. apply (@int16_within _ 0.9%R 29490); [lia | exact Hc |].
    unfold Rabs in Hx. destruct (Rcase_abs x); lra.
Qed.

(** X3.  [normalize_and_convert] of a non-empty track returns as many
    16-bit samples as the track has, every one within -29490 .. 29490
    (0.9 of full scale, so the conversion never wraps), and when the track
    is not silent its loudest sample becomes 29490 or -29490. *)
Theorem normalize_and_convert_range (track : list R) :
  track <> [] ->
  exists (peak : R) (out : list Z),
    np_max_abs track = Ok peak /\
    Drums.normalize_and_convert track = Ok out /\
    length out = length track /\
    Forall (fun z => -29490 <= z <= 29490)%Z out /\
    ((0 < peak)%R -> Exists (fun z => Z.abs z = 29490%Z) out).
Proof. apply normalize_and_convert_spec. Qed.

Lemma normalize_and_convert_range_witness :
  exists (peak : R) (out : list Z),
    np_max_abs [0.5; -2]%R = Ok peak /\
    Drums.normalize_and_convert [0.5; -2]%R = Ok out /\
    length out = 2%nat.
Proof.
  destruct (@normalize_and_convert_range [0.5; -2]%R) as (p & out & H1 & H2 & H3 & _).
  - discriminate.
  - exists p, out. auto.
Defined.

Section PeakUnique.

Local Open Scope R_scope.



End PeakUnique.



(** X5.  [save_wav] of [generate_synths.py] on a non-empty buffer hands
    [wavfile.write] as many 16-bit samples as the buffer has, every one
    within -22936 .. 22936 (0.7 of full scale, so the conversion never
    wraps); when the buffer is not silent its loudest sample becomes 22936
    or -22936. *)
Theorem synths_save_wav_range (audio : list R) :
  audio <> [] ->
  exists (peak : R) (out : list Z),
    np_max_abs audio = Ok peak /\
    Synths.save_wav audio = Ok out /\
    length out = length audio /\
    Forall (fun z => -22936 <= z <= 22936)%Z out /\
    ((0 < peak)%R -> Exists (fun z => Z.abs z = 22936%Z) out).
Proof.
  intros Hne. destruct (@np_max_abs_ok audio Hne) as [p Hp].
  destruct (@np_max_abs_spec audio p Hp) as (Hall & Hex & Hp0).
  assert (Hc : (IZR 22936 <= 0.7 * 32767 < IZR 22936 + 1)%R) by lra.
  exists p. unfold Synths.save_wav, Synths.normalize_peak. rewrite Hp. cbn [bind].
  destruct (Rlt_dec 0 p) as [Hpos | Hzero].
  - eexists. split; [reflexivity |]. split; [reflexivity |].
    unfold vscale. rewrite !map_map. split; [apply length_map |]. split.
    + apply Forall_map. eapply Forall_impl; [| exact Hall]. cbv beta.
      intros x Hx. apply (@int16_within _ 0.7%R 22936); [lia | exact Hc |].
      pose proof (@unit_ratio x p Hpos Hx) as Hr.
      replace (x * (0.7 / p))%R with (x / p * 0.7)%R by (field; lra). lra.
    + intros _. apply Exists_exists in Hex as (x & Hin & Hx).
      apply Exists_exists. exists (int16 (x * (0.7 / p) * 32767)). split.
      * apply in_map_iff. exists x. now split.
      * destruct (@int16_at_ceiling 0.7%R 22936) as [Hhi Hlo]; [lia | exact Hc |].
        replace (x * (0.7 / p))%R with (x / p * 0.7)%R by (field; lra).
        destruct (@peak_ratio x p Hpos Hx) as [E | E]; rewrite E.
        -- replace (1 * 0.7 * 32767)%R with (0.7 * 32767)%R by lra.
           now rewrite Hhi.
        -- replace (-1 * 0.7 * 32767)%R with (- (0.7) * 32767)%R by lra.
           now rewrite Hlo.
  - eexists. split; [reflexivity |]. split; [reflexivity |].
    split; [apply length_map |]. split; [| intros Hpos; contradiction].
    apply Forall_map. eapply Forall_impl; [| exact Hall]. cbv beta.
    intros x Hx. apply (@int16_within _ 0.7%R 22936); [lia | exact Hc |].
    unfold Rabs in Hx. destruct (Rcase_abs x); lra.
Qed.

Lemma synths_save_wav_range_witness :
  exists (peak : R) (out : list Z),
    np_max_abs [0.5; -2]%R = Ok peak /\
    Synths.save_wav [0.5; -2]%R = Ok out /\
    length out = 2%nat.
Proof.
  destruct (@synths_save_wav_range [0.5; -2]%R) as (p & out & H1 & H2 & H3 & _).
  - discriminate.
  - exists p, out. auto.
Defined.

(** X6.  [save_wav] of [generate_bass.py] never fails and never wraps: it
    writes as many 16-bit samples as it is given, every one within
    -32767 .. 32767; a sample of 1.0 or more becomes 32767 and a sample of
    -1.0 or less becomes -32767. *)
Theorem bass_save_wav_clips (audio : list R) :
  length (Bass.save_wav audio) = length audio /\
  Forall (fun z => -32767 <= z <= 32767)%Z (Bass.save_wav audio) /\
  (forall (i : nat) (x : R), nth_error audio i = Some x -> (1 <= x)%R ->
     nth_error (Bass.save_wav audio) i = Some 32767%Z) /\
  (forall (i : nat) (x : R), nth_error audio i = Some x -> (x <= -1)%R ->
     nth_error (Bass.save_wav audio) i = Some (-32767)%Z).
Proof.
  assert (Hc : (IZR 32767 <= 1 * 32767 < IZR 32767 + 1)%R) by lra.
  destruct (@int16_at_ceiling 1%R 32767) as [Hhi Hlo]; [lia | exact Hc |].
  unfold Bass.save_wav. split; [apply length_map |]. split; [| split].
  - apply Forall_map, Forall_forall. intros x _.
    apply (@int16_within _ 1%R 32767); [lia | exact Hc |].
    unfold Bass.clip, Rmin, Rmax.
    destruct (Rle_dec x (-1.0)); destruct (Rle_dec _ 1.0); lra.
  - intros i x Hi Hx. rewrite nth_error_map, Hi. cbn [option_map]. f_equal.
    replace (Bass.clip x) with 1%R; [exact Hhi |].
    unfold Bass.clip, Rmin, Rmax.
    destruct (Rle_dec x (-1.0)); destruct (Rle_dec _ 1.0); lra.
  - intros i x Hi Hx. rewrite nth_error_map, Hi. cbn [option_map]. f_equal.
    replace (Bass.clip x) with (-1)%R.
    + replace (-1 * 32767)%R with (- (1) * 32767)%R by lra. exact Hlo.
    + unfold Bass.clip, Rmin, Rmax.
      destruct (Rle_dec x (-1.0)); destruct (Rle_dec _ 1.0); lra.
Qed.

Lemma bass_normalize_spec (wave : list R) (volume : R) :
  wave <> [] -> (0 < volume)%R ->
  exists out : list R,
    Bass.normalize wave volume = Ok out /\
    length out = length wave /\
    Forall (fun y => - volume < y < volume)%R out.
Proof.
  intros Hne Hv. destruct (@np_max_abs_ok wave Hne) as [p Hp].
  destruct (@np_max_abs_spec wave p Hp) as (Hall & _ & Hp0).
  unfold Bass.normalize. rewrite Hp. cbn [bind].
  eexists. split; [reflexivity |]. unfold vscale. rewrite map_map.
  split; [apply length_map |].
  apply Forall_map. eapply Forall_impl; [| exact Hall]. cbv beta.
  intros x Hx.
  assert (Hd : (0 < p + 1e-9)%R) by lra.
  assert (Hq : (0 < / (p + 1e-9))%R) by now apply Rinv_0_lt_compat.
  assert (E : ((p + 1e-9) * / (p + 1e-9) = 1)%R) by (apply Rinv_r; lra).
  assert (Hb : (- p <= x <= p)%R).
  { unfold Rabs in Hx. destruct (Rcase_abs x); lra. }
  assert (Hr : (-1 < x / (p + 1e-9) < 1)%R).
  { unfold Rdiv. split; nra. }
  split; nra.
Qed.

(** X7.  The epsilon-guarded normalisation of [generate_bass.py] on a
    non-empty buffer returns a buffer of the same length and, for a
    positive volume, every sample is strictly inside (-volume, volume):
    because of the 1e-9 in the denominator the ceiling is never reached. *)
Theorem bass_normalize_below_ceiling (wave : list R) (volume : R) :
  wave <> [] -> (0 < volume)%R ->
  exists out : list R,
    Bass.normalize wave volume = Ok out /\
    length out = length wave /\
    Forall (fun y => - volume < y < volume)%R out.
Proof. apply bass_normalize_spec. Qed.

Lemma bass_normalize_below_ceiling_witness :
  exists out : list R,
    Bass.normalize [1; -3]%R 0.8 = Ok out /\ length out = 2%nat.
Proof.
  destruct (@bass_normalize_below_ceiling [1; -3]%R 0.8%R) as (out & H1 & H2 & _).
  - discriminate.
  - lra.
  - exists out. auto.
Defined.

(** ** The four drum sections *)

Section DrumSections.

Import Drums.
Local Open Scope Z_scope.

Lemma py_int_mono (x y : Q) : (0 <= x)%Q -> (x <= y)%Q -> py_int x <= py_int y.
Proof.
  intros Hx Hxy.
  rewrite (py_int_nonneg Hx), (@py_int_nonneg y) by (now apply Qle_trans with x).
  now apply Qfloor_resp_le.
Qed.

(** A beat between 0 and the length of the section, in beats, is a sample
    position inside the track. *)
Lemma beat_inside (num_beats : Z) (b : Q) :
  (0 <= b)%Q -> (b <= inject_Z num_beats)%Q ->
  0 <= beat_to_samples b <= 22050 * num_beats.
Proof.
  intros Hb Hle.
  assert (Hbd : (0 <= BEAT_DURATION)%Q) by (vm_compute; congruence).
  assert (Hsr : (0 <= SAMPLE_RATE)%Q) by (vm_compute; congruence).
  assert (H0 : (0 <= b * BEAT_DURATION * SAMPLE_RATE)%Q)
    by (repeat apply Qmult_le_0_compat; assumption).
  split.
  - now apply py_int_ge_0.
  - rewrite <- beat_to_samples_int. unfold beat_to_samples.
    apply py_int_mono; [exact H0 |].
    repeat (apply Qmult_le_compat_r; [| assumption]). exact Hle.
Qed.

Lemma In_range (n x : Z) : In x (range n) <-> 0 <= x < n.
Proof.
  unfold range. rewrite in_map_iff. split.
  - intros (k & <- & Hk). apply in_seq in Hk. lia.
  - intros H. exists (Z.to_nat x). split; [lia |]. apply in_seq. lia.
Qed.

Lemma generate_ok (v : voice) (g : rng) :
  exists (sound : list R) (g' : rng), generate v g = Ok (sound, g').
Proof.
  destruct v; cbn [generate].
  - destruct (@kick_run 0.15 SAMPLE_RATE g) as (b & H & _);
      [vm_compute; congruence |]. eauto.
  - destruct (@snare_run 0.12 SAMPLE_RATE g) as (b & H & _);
      [vm_compute; congruence |]. eauto.
  - destruct (@hihat_run 100 0.04 SAMPLE_RATE g) as (b & H & _);
      [vm_compute; congruence |]. eauto.
  - destruct (@hihat_run 20 0.12 SAMPLE_RATE g) as (b & H & _);
      [vm_compute; congruence |]. eauto.
Qed.

Lemma place_sound_keeps_length (track sound : list R) (z : Z) (volume : R) :
  0 <= z <= Z.of_nat (length track) ->
  exists track' : list R,
    place_sound track sound (inject_Z z) volume = Ok track' /\
    length track' = length track.
Proof.
  intros Hz.
  assert (Hrange : 0 <= py_int (inject_Z z) <= Z.of_nat (length track))
    by (rewrite py_int_inject_Z; exact Hz).
  pose proof (@place_sound_in_range track sound (inject_Z z) volume Hrange) as Hp.
  pose proof (@placed_segment_length track sound (inject_Z z) volume) as Hs.
  cbv zeta in Hp, Hs.
  set (fit := Nat.min (length sound)
                (length track - Z.to_nat (py_int (inject_Z z)))) in *.
  set (mid := vadd _ _) in *.
  eexists. split; [exact Hp |].
  rewrite <- Hs. apply splice_length. rewrite Hs. unfold fit. lia.
Qed.

Lemma play_all_keeps_length (num_beats : Z) (ps : list placement) :
  fits num_beats ps ->
  forall (track : list R) (g : rng),
    Z.of_nat (length track) = 22050 * num_beats ->
    exists (track' : list R) (g' : rng),
      play_all track ps g = Ok (track', g') /\ length track' = length track.
Proof.
  intros Hfit. induction Hfit as [| p ps [Hp0 Hp1] _ IH]; intros track g Hlen.
  - exists track, g. split; reflexivity.
  - cbn [play_all]. unfold mbind at 1. unfold play, mbind, lift.
    destruct (generate_ok (p_voice p) g) as (sound & g1 & Hgen).
    rewrite Hgen. cbn [bind fst snd].
    destruct (@place_sound_keeps_length track sound
                (beat_to_samples (p_beat p)) (p_volume p))
      as (track1 & Hplace & Hlen1).
    { rewrite Hlen. now apply beat_inside. }
    rewrite Hplace. cbn [bind fst snd].
    destruct (IH track1 g1) as (track' & g' & Hrun & Hlen');
      [now rewrite Hlen1 |].
    exists track', g'. split; [exact Hrun | now rewrite Hlen', Hlen1].
Qed.

(** A section of at least one beat whose placements fit is rendered
    without failure into [22050 * num_beats] samples within 0.9 of full
    scale. *)
Lemma section_run (num_beats : Z) (ps : list placement) (g : rng) :
  1 <= num_beats -> fits num_beats ps ->
  exists (out : list Z) (g' : rng),
    mbind (lift (np_zeros
                   (py_int (inject_Z num_beats * BEAT_DURATION * SAMPLE_RATE)%Q)))
      (fun track => mbind (play_all track ps)
                      (fun track => lift (normalize_and_convert track))) g
    = Ok (out, g') /\
    Z.of_nat (length out) = 22050 * num_beats /\
    Forall (fun z => -29490 <= z <= 29490) out.
Proof.
  intros Hnb Hfit.
  change (py_int (inject_Z num_beats * BEAT_DURATION * SAMPLE_RATE)%Q)
    with (beat_to_samples (inject_Z num_beats)).
  rewrite beat_to_samples_int.
  unfold mbind at 1. unfold lift at 1.
  rewrite np_zeros_ok by lia. cbn [bind fst snd].
  assert (L0 : Z.of_nat (length (repeat 0%R (Z.to_nat (22050 * num_beats))))
               = 22050 * num_beats) by (rewrite repeat_length; lia).
  destruct (@play_all_keeps_length num_beats ps Hfit _ g L0)
    as (track & g' & Hrun & Hlen).
  unfold mbind. rewrite Hrun. cbn [bind fst snd]. unfold lift.
  assert (Hne : track <> []).
  { intros ->. cbn [length] in Hlen. rewrite repeat_length in Hlen. lia. }
  destruct (@normalize_and_convert_spec track Hne)
    as (p & out & _ & Hout & Hlo & Hr & _).
  rewrite Hout. cbn [bind]. exists out, g'.
  split; [reflexivity |]. split; [| exact Hr].
  rewrite Hlo, Hlen. exact L0.
Qed.

Lemma range_nonpos (n : Z) : n <= 0 -> range n = [].
Proof. intros H. unfold range. now replace (Z.to_nat n) with 0%nat by lia. Qed.

(** A section of no beat has an empty track, whose peak cannot be taken;
    a negative number of beats is a negative array size. *)
Lemma section_fails (num_beats : Z) (g : rng) :
  num_beats <= 0 ->
  mbind (lift (np_zeros
                 (py_int (inject_Z num_beats * BEAT_DURATION * SAMPLE_RATE)%Q)))
    (fun track => mbind (play_all track [])
                    (fun track => lift (normalize_and_convert track))) g
  = Raise ValueError.
Proof.
  intros Hnb.
  change (py_int (inject_Z num_beats * BEAT_DURATION * SAMPLE_RATE)%Q)
    with (beat_to_samples (inject_Z num_beats)).
  rewrite beat_to_samples_int.
  unfold mbind, lift, np_zeros.
  destruct (Z.ltb_spec (22050 * num_beats) 0) as [Hneg | Hzero]; [reflexivity |].
  replace (22050 * num_beats) with 0 by lia. reflexivity.
Qed.

End DrumSections.

Section SectionPlacements.

Import Drums.
Local Open Scope Z_scope.

Ltac beat_bounds :=
  cbn [p_beat]; unfold Qle, Qplus, Qmult, inject_Z; cbn -[Z.mul Z.add]; lia.

Ltac each_placement H :=
  repeat (destruct H as [<- | H]; [split; beat_bounds |]); try contradiction.

Lemma bar_inside (num_beats bar : Z) :
  In bar (range (py_floordiv num_beats 4)) -> 0 <= bar /\ bar * 4 + 4 <= num_beats.
Proof.
  intros H. apply In_range in H. unfold py_floordiv in H.
  pose proof (Z.mul_div_le num_beats 4 ltac:(lia)). lia.
Qed.

Lemma chorus_fits (num_beats : Z) :
  fits num_beats (flat_map chorus_bar (range (py_floordiv num_beats 4))).
Proof.
  apply Forall_forall. intros p Hp.
  apply in_flat_map in Hp as (bar & Hbar & Hp).
  apply bar_inside in Hbar as [Hb0 Hb1].
  unfold chorus_bar in Hp.
  change (range 4) with [0; 1; 2; 3] in Hp.
  change (range 8) with [0; 1; 2; 3; 4; 5; 6; 7] in Hp.
  cbn [map] in Hp. rewrite !in_app_iff in Hp.
  destruct Hp as [Hp | [Hp | [Hp | Hp]]].
  - cbn [In] in Hp. each_placement Hp.
  - cbn [In] in Hp. each_placement Hp.
  - cbn in Hp. each_placement Hp.
  - destruct ((bar + 1) mod 4 =? 0); [| contradiction].
    cbn [In] in Hp. each_placement Hp.
Qed.

Lemma verse_fits (num_beats : Z) :
  fits num_beats (flat_map verse_bar (range (py_floordiv num_beats 4))).
Proof.
  apply Forall_forall. intros p Hp.
  apply in_flat_map in Hp as (bar & Hbar & Hp).
  apply bar_inside in Hbar as [Hb0 Hb1].
  unfold verse_bar in Hp.
  change (range 8) with [0; 1; 2; 3; 4; 5; 6; 7] in Hp.
  cbn [map app In] in Hp. each_placement Hp.
Qed.

Lemma outro_fits (num_beats : Z) :
  fits num_beats (flat_map (outro_bar num_beats) (range (py_floordiv num_beats 4))).
Proof.
  apply Forall_forall. intros p Hp.
  apply in_flat_map in Hp as (bar & Hbar & Hp).
  apply bar_inside in Hbar as [Hb0 Hb1].
  unfold outro_bar in Hp.
  change (range 8) with [0; 1; 2; 3; 4; 5; 6; 7] in Hp.
  destruct (bar <? 3); destruct (bar <? 2);
    cbn [map app In] in Hp; each_placement Hp.
Qed.

Lemma intro_fits (num_beats : Z) : fits num_beats (intro_placements num_beats).
Proof.
  apply Forall_forall. intros p Hp. unfold intro_placements in Hp.
  apply in_map_iff in Hp as (i & <- & Hi). apply In_range in Hi.
  destruct ((i mod 4 =? 0) && (i >? py_floordiv (num_beats * 2) 2))%bool;
    split; beat_bounds.
Qed.

Lemma no_bars (num_beats : Z) :
  num_beats <= 0 -> range (py_floordiv num_beats 4) = [].
Proof.
  intros H. apply range_nonpos. unfold py_floordiv.
  pose proof (Z.div_le_upper_bound num_beats 4 0 ltac:(lia) ltac:(lia)). lia.
Qed.

End SectionPlacements.

(** X8.  [generate_intro] with at least one beat never fails: it returns
    [22050 * num_beats] 16-bit samples (352800 for the default 16 beats),
    each within -29490 .. 29490.  With no beat, or a negative number of
    beats, it raises [ValueError]. *)
Theorem generate_intro_runs (num_beats : Z) (g : Drums.rng) :
  ((1 <= num_beats)%Z ->
     exists (out : list Z) (g' : Drums.rng),
       Drums.generate_intro num_beats g = Ok (out, g') /\
       Z.of_nat (length out) = (22050 * num_beats)%Z /\
       Forall (fun z => -29490 <= z <= 29490)%Z out) /\
  ((num_beats <= 0)%Z -> Drums.generate_intro num_beats g = Raise ValueError).
Proof.
  split; intros H.
  - apply section_run; [exact H | apply intro_fits].
  - unfold Drums.generate_intro, Drums.intro_placements.
    rewrite range_nonpos by lia. apply section_fails. exact H.
Qed.

Lemma generate_intro_runs_witness :
  (exists (out : list Z) (g' : Drums.rng),
     Drums.generate_intro 16 (fun _ => 0%R) = Ok (out, g') /\
     Z.of_nat (length out) = 352800%Z) /\
  Drums.generate_intro 0 (fun _ => 0%R) = Raise ValueError.
Proof.
  destruct (@generate_intro_runs 16 (fun _ => 0%R)) as [Hrun _].
  destruct (@generate_intro_runs 0 (fun _ => 0%R)) as [_ Hfail].
  split.
  - destruct Hrun as (out & g' & E & L & _); [lia |].
    exists out, g'. split; [exact E | exact L].
  - apply Hfail. lia.
Defined.


(** X9.  [generate_verse] with at least one beat never fails: it returns
    [22050 * num_beats] 16-bit samples, each within -29490 .. 29490.  With
    no beat, or a negative number of beats, it raises [ValueError]. *)
Theorem generate_verse_runs (num_beats : Z) (g : Drums.rng) :
  ((1 <= num_beats)%Z ->
     exists (out : list Z) (g' : Drums.rng),
       Drums.generate_verse num_beats g = Ok (out, g') /\
       Z.of_nat (length out) = (22050 * num_beats)%Z /\
       Forall (fun z => -29490 <= z <= 29490)%Z out) /\
  ((num_beats <= 0)%Z -> Drums.generate_verse num_beats g = Raise ValueError).
Proof.
  split; intros H.
  - apply section_run; [exact H | apply verse_fits].
  - unfold Drums.generate_verse. rewrite no_bars by exact H.
    apply section_fails. exact H.
Qed.

Lemma generate_verse_runs_witness :
  (exists (out : list Z) (g' : Drums.rng),
     Drums.generate_verse 16 (fun _ => 0%R) = Ok (out, g') /\
     Z.of_nat (length out) = 352800%Z) /\
  Drums.generate_verse 0 (fun _ => 0%R) = Raise ValueError.
Proof.
  destruct (@generate_verse_runs 16 (fun _ => 0%R)) as [Hrun _].
  destruct (@generate_verse_runs 0 (fun _ => 0%R)) as [_ Hfail].
  split.
  - destruct Hrun as (out & g' & E & L & _); [lia |].
    exists out, g'. split; [exact E | exact L].
  - apply Hfail. lia.
Defined.


(** X10.  [generate_chorus] with at least one beat never fails: it returns
    [22050 * num_beats] 16-bit samples, each within -29490 .. 29490.  With
    no beat, or a negative number of beats, it raises [ValueError]. *)
Theorem generate_chorus_runs (num_beats : Z) (g : Drums.rng) :
  ((1 <= num_beats)%Z ->
     exists (out : list Z) (g' : Drums.rng),
       Drums.generate_chorus num_beats g = Ok (out, g') /\
       Z.of_nat (length out) = (22050 * num_beats)%Z /\
       Forall (fun z => -29490 <= z <= 29490)%Z out) /\
  ((num_beats <= 0)%Z -> Drums.generate_chorus num_beats g = Raise ValueError).
Proof.
  split; intros H.
  - apply section_run; [exact H | apply chorus_fits].
  - unfold Drums.generate_chorus. rewrite no_bars by exact H.
    apply section_fails. exact H.
Qed.

Lemma generate_chorus_runs_witness :
  (exists (out : list Z) (g' : Drums.rng),
     Drums.generate_chorus 16 (fun _ => 0%R) = Ok (out, g') /\
     Z.of_nat (length out) = 352800%Z) /\
  Drums.generate_chorus 0 (fun _ => 0%R) = Raise ValueError.
Proof.
  destruct (@generate_chorus_runs 16 (fun _ => 0%R)) as [Hrun _].
  destruct (@generate_chorus_runs 0 (fun _ => 0%R)) as [_ Hfail].
  split.
  - destruct Hrun as (out & g' & E & L & _); [lia |].
    exists out, g'. split; [exact E | exact L].
  - apply Hfail. lia.
Defined.


(** X11.  [generate_outro] with at least one beat never fails: it returns
    [22050 * num_beats] 16-bit samples, each within -29490 .. 29490.  With
    no beat, or a negative number of beats, it raises [ValueError]. *)
Theorem generate_outro_runs (num_beats : Z) (g : Drums.rng) :
  ((1 <= num_beats)%Z ->
     exists (out : list Z) (g' : Drums.rng),
       Drums.generate_outro num_beats g = Ok (out, g') /\
       Z.of_nat (length out) = (22050 * num_beats)%Z /\
       Forall (fun z => -29490 <= z <= 29490)%Z out) /\
  ((num_beats <= 0)%Z -> Drums.generate_outro num_beats g = Raise ValueError).
Proof.
  split; intros H.
  - apply section_run; [exact H | apply outro_fits].
  - unfold Drums.generate_outro. rewrite no_bars by exact H.
    apply section_fails. exact H.
Qed.

Lemma generate_outro_runs_witness :
  (exists (out : list Z) (g' : Drums.rng),
     Drums.generate_outro 16 (fun _ => 0%R) = Ok (out, g') /\
     Z.of_nat (length out) = 352800%Z) /\
  Drums.generate_outro 0 (fun _ => 0%R) = Raise ValueError.
Proof.
  destruct (@generate_outro_runs 16 (fun _ => 0%R)) as [Hrun _].
  destruct (@generate_outro_runs 0 (fun _ => 0%R)) as [_ Hfail].
  split.
  - destruct Hrun as (out & g' & E & L & _); [lia |].
    exists out, g'. split; [exact E | exact L].
  - apply Hfail. lia.
Defined.


(** ** The shape of a full envelope *)

Section EnvelopeShape.

Local Open Scope R_scope.

(** Writing [vals] right after a finished prefix of a buffer whose rest is
    still zero. *)
Lemma prefix_splice (pre vals : list R) (r : nat) :
  (length vals <= r)%nat ->
  firstn (length pre) (pre ++ repeat 0 r) ++ vals
    ++ skipn (length pre + length vals) (pre ++ repeat 0 r)
  = (pre ++ vals) ++ repeat 0 (r - length vals).
Proof.
  intros H.
  rewrite firstn_app, Nat.sub_diag, firstn_all. cbn [firstn]. rewrite app_nil_r.
  rewrite skipn_app, skipn_all2 by lia.
  replace (length pre + length vals - length pre)%nat with (length vals) by lia.
  rewrite <- (repeat_length 0 (length vals)) at 1.
  replace r with (length vals + (r - length vals))%nat at 1 by lia.
  rewrite repeat_app, skipn_app, skipn_all, repeat_length, Nat.sub_diag.
  cbn [skipn app]. now rewrite app_assoc.
Qed.

Lemma assign_after_prefix (pre vals : list R) (r : nat) (idx end_ : Z) :
  idx = Z.of_nat (length pre) ->
  end_ = (idx + Z.of_nat (length vals))%Z ->
  (length vals <= r)%nat ->
  slice_assign (pre ++ repeat 0 r) (Some idx) (Some end_) vals
  = Ok ((pre ++ vals) ++ repeat 0 (r - length vals)).
Proof.
  intros -> -> H.
  assert (L : length (pre ++ repeat 0 r) = (length pre + r)%nat)
    by (now rewrite length_app, repeat_length).
  rewrite slice_assign_exact; unfold slice_lo, slice_hi; rewrite L;
    rewrite ?slice_index_inside by lia; try lia.
  rewrite Nat2Z.id.
  replace (Z.to_nat (Z.of_nat (length pre) + Z.of_nat (length vals)))
    with (length pre + length vals)%nat by lia.
  now rewrite prefix_splice.
Qed.

Lemma fill_after_prefix (pre : list R) (r k : nat) (idx end_ : Z) (c : R) :
  idx = Z.of_nat (length pre) ->
  end_ = (idx + Z.of_nat k)%Z ->
  (k <= r)%nat ->
  slice_fill (pre ++ repeat 0 r) (Some idx) (Some end_) c
  = Ok ((pre ++ repeat c k) ++ repeat 0 (r - k)).
Proof.
  intros -> -> H.
  assert (L : length (pre ++ repeat 0 r) = (length pre + r)%nat)
    by (now rewrite length_app, repeat_length).
  rewrite slice_fill_exact; unfold slice_lo, slice_hi; rewrite L;
    rewrite ?slice_index_inside by lia; try lia.
  rewrite Nat2Z.id.
  replace (Z.to_nat (Z.of_nat (length pre) + Z.of_nat k) - length pre)%nat
    with k by lia.
  replace (Z.to_nat (Z.of_nat (length pre) + Z.of_nat k))
    with (length pre + length (repeat c k))%nat by (rewrite repeat_length; lia).
  rewrite prefix_splice by (rewrite repeat_length; lia).
  now rewrite repeat_length.
Qed.

Lemma assign_tail_after_prefix (pre vals : list R) (idx : Z) :
  idx = Z.of_nat (length pre) ->
  slice_assign (pre ++ repeat 0 (length vals)) (Some idx) None vals
  = Ok (pre ++ vals).
Proof.
  intros ->.
  assert (L : length (pre ++ repeat 0 (length vals))
              = (length pre + length vals)%nat)
    by (now rewrite length_app, repeat_length).
  rewrite slice_assign_exact; unfold slice_lo, slice_hi; rewrite L;
    rewrite ?slice_index_inside by lia; try lia.
  rewrite Nat2Z.id, prefix_splice by lia.
  rewrite Nat.sub_diag. cbn [repeat]. now rewrite app_nil_r.
Qed.

(** The guarded phases of the synth envelope, when the phase fits in what
    is left of the buffer: a phase that is skipped is an empty phase. *)
Lemma synths_ramp_exact (pre : list R) (r : nat) (idx n k : Z) (a b : R)
      (guard : bool) :
  idx = Z.of_nat (length pre) -> n = (idx + Z.of_nat r)%Z ->
  (0 <= k <= Z.of_nat r)%Z ->
  (guard = true -> (0 < k)%Z) -> (guard = false -> k = 0%Z) ->
  (if guard then
     vals <- np_linspace a b (Z.min (idx + k) n - idx) ;;
     env0 <- slice_assign (pre ++ repeat 0 r) (Some idx)
               (Some (Z.min (idx + k) n)) vals ;;
     Ok (env0, Z.min (idx + k) n)
   else Ok (pre ++ repeat 0 r, idx))
  = Ok ((pre ++ linspace a b (Z.to_nat k)) ++ repeat 0 (r - Z.to_nat k),
        (idx + k)%Z).
Proof.
  intros Hidx Hn Hk Ht Hf. destruct guard.
  - rewrite Z.min_l by lia.
    replace (idx + k - idx)%Z with k by lia.
    rewrite np_linspace_ok by lia. cbn [bind].
    rewrite (@assign_after_prefix pre _ r idx (idx + k));
      rewrite ?linspace_length; try lia.
    reflexivity.
  - rewrite (Hf eq_refl). cbn [Z.to_nat linspace].
    now rewrite app_nil_r, Nat.sub_0_r, Z.add_0_r.
Qed.

Lemma synths_fill_exact (pre : list R) (r : nat) (idx n k : Z) (c : R)
      (guard : bool) :
  idx = Z.of_nat (length pre) -> n = (idx + Z.of_nat r)%Z ->
  (0 <= k <= Z.of_nat r)%Z ->
  (guard = true -> (0 < k)%Z) -> (guard = false -> k = 0%Z) ->
  (if guard then
     env0 <- slice_fill (pre ++ repeat 0 r) (Some idx)
               (Some (Z.min (idx + k) n)) c ;;
     Ok (env0, Z.min (idx + k) n)
   else Ok (pre ++ repeat 0 r, idx))
  = Ok ((pre ++ repeat c (Z.to_nat k)) ++ repeat 0 (r - Z.to_nat k),
        (idx + k)%Z).
Proof.
  intros Hidx Hn Hk Ht Hf. destruct guard.
  - rewrite Z.min_l by lia.
    rewrite (@fill_after_prefix pre r (Z.to_nat k) idx (idx + k)); try lia.
    reflexivity.
  - rewrite (Hf eq_refl). cbn [Z.to_nat repeat].
    now rewrite app_nil_r, Nat.sub_0_r, Z.add_0_r.
Qed.

Lemma synths_release_exact (pre : list R) (r : nat) (idx n : Z) (a b : R) :
  idx = Z.of_nat (length pre) -> n = (idx + Z.of_nat r)%Z ->
  (if (idx <? n)%Z then
     vals <- np_linspace a b (n - idx) ;;
     slice_assign (pre ++ repeat 0 r) (Some idx) None vals
   else Ok (pre ++ repeat 0 r))
  = Ok (pre ++ linspace a b r).
Proof.
  intros Hidx Hn. destruct (Z.ltb_spec idx n) as [Hlt | Hge].
  - rewrite np_linspace_ok by lia. cbn [bind].
    replace (Z.to_nat (n - idx)) with r by lia.
    rewrite <- (linspace_length a b r) at 1.
    now apply assign_tail_after_prefix.
  - replace r with 0%nat by lia. reflexivity.
Qed.

End EnvelopeShape.

Section FullEnvelope.

Local Open Scope R_scope.

Ltac lens :=
  rewrite ?length_app, ?linspace_length, ?repeat_length; cbn [length]; lia.

Variables (n : Z) (attack decay release : Q) (s : R).

Let A := py_int (attack * SAMPLE_RATE).
Let D := py_int (decay * SAMPLE_RATE).
Let Rl := py_int (release * SAMPLE_RATE).

Hypothesis counts_nonneg : (0 <= A /\ 0 <= D /\ 0 <= Rl)%Z.
Hypothesis long_enough : (A + D + Rl <= n)%Z.

(** The four phases, one after the other. *)
Let full : list R :=
  linspace 0 1 (Z.to_nat A) ++ linspace 1 s (Z.to_nat D)
    ++ repeat s (Z.to_nat (n - A - D - Rl)) ++ linspace s 0 (Z.to_nat Rl).

Lemma bass_full_shape :
  Bass.adsr_envelope n attack decay s release SAMPLE_RATE = Ok full.
Proof.
  destruct counts_nonneg as (HA & HD & HR).
  unfold Bass.adsr_envelope. fold A D Rl.
  rewrite np_zeros_ok by lia. cbn [bind]. cbv zeta.
  destruct (Z.ltb_spec (n - A - D - Rl) 0) as [Hlt | _]; [lia |].
  rewrite !np_linspace_ok by lia. cbn [bind].
  change (repeat 0 (Z.to_nat n)) with ([] ++ repeat 0 (Z.to_nat n)).
  rewrite (@assign_after_prefix [] _ (Z.to_nat n) 0 (0 + A)) by lens.
  cbn [bind].
  rewrite (@assign_after_prefix _ (linspace 1 s (Z.to_nat D)) _ (0 + A) (0 + A + D))
    by lens.
  cbn [bind].
  rewrite (@fill_after_prefix _ _ (Z.to_nat (n - A - D - Rl)) (0 + A + D)
             (0 + A + D + (n - A - D - Rl)) s) by lens.
  cbn [bind].
  rewrite (@assign_after_prefix _ (linspace s 0 (Z.to_nat Rl)) _
             (0 + A + D + (n - A - D - Rl))
             (0 + A + D + (n - A - D - Rl) + Rl)) by lens.
  cbn [bind]. f_equal.
  rewrite !linspace_length.
  replace (Z.to_nat n - Z.to_nat A - Z.to_nat D - Z.to_nat (n - A - D - Rl)
           - Z.to_nat Rl)%nat with 0%nat by lia.
  cbn [repeat app]. rewrite app_nil_r. unfold full.
  now rewrite <- !app_assoc.
Qed.

Lemma synths_full_shape :
  Synths.adsr_envelope n attack decay s release SAMPLE_RATE = Ok full.
Proof.
  destruct counts_nonneg as (HA & HD & HR).
  unfold Synths.adsr_envelope. fold A D Rl.
  rewrite np_zeros_ok by lia. cbn [bind]. cbv zeta.
  change (repeat 0 (Z.to_nat n)) with ([] ++ repeat 0 (Z.to_nat n)).
  rewrite (@synths_ramp_exact [] (Z.to_nat n) 0 n A 0 1 (A >? 0)%Z);
    [| lens | lia | lia | lia | lia].
  cbn [bind].
  rewrite (@synths_ramp_exact _ _ (0 + A) n D 1 s ((0 + A <? n)%Z && (D >? 0)%Z));
    [| lens | lia | lia
     | intros G; apply andb_prop in G; lia
     | intros G; apply andb_false_iff in G; lia].
  cbn [bind].
  rewrite (@synths_fill_exact _ _ (0 + A + D) n (Z.max 0 (n - A - D - Rl)) s
             ((0 + A + D <? n)%Z && (Z.max 0 (n - A - D - Rl) >? 0)%Z));
    [| lens | lia | lia
     | intros G; apply andb_prop in G; lia
     | intros G; apply andb_false_iff in G; lia].
  cbn [bind].
  rewrite Z.max_r by lia.
  rewrite (@synths_release_exact _ _ (0 + A + D + (n - A - D - Rl)) n s 0);
    [| lens | lia].
  f_equal. unfold full.
  replace (Z.to_nat n - Z.to_nat A - Z.to_nat D - Z.to_nat (n - A - D - Rl))%nat
    with (Z.to_nat Rl) by lia.
  cbn [app]. now rewrite <- !app_assoc.
Qed.

End FullEnvelope.

(** X12.  When the attack, decay and release sample counts are not
    negative and together fit in the buffer, the envelope generators of
    [generate_bass.py] and [generate_synths.py] return the same envelope:
    the attack ramp from 0 to 1, the decay ramp from 1 to the sustain
    level, the sustain level held, and the release ramp down to 0, one
    after the other. *)
Theorem adsr_generators_agree (n : Z) (attack decay : Q) (s : R) (release : Q) :
  let A := py_int (attack * SAMPLE_RATE) in
  let D := py_int (decay * SAMPLE_RATE) in
  let Rl := py_int (release * SAMPLE_RATE) in
  (0 <= A /\ 0 <= D /\ 0 <= Rl)%Z -> (A + D + Rl <= n)%Z ->
  let full := linspace 0 1 (Z.to_nat A) ++ linspace 1 s (Z.to_nat D)
                ++ repeat s (Z.to_nat (n - A - D - Rl))
                ++ linspace s 0 (Z.to_nat Rl) in
  Bass.adsr_envelope n attack decay s release SAMPLE_RATE = Ok full /\
  Synths.adsr_envelope n attack decay s release SAMPLE_RATE = Ok full.
Proof.
  intros A D Rl Hc Hn full. split.
  - now apply bass_full_shape.
  - now apply synths_full_shape.
Qed.

Lemma adsr_generators_agree_witness :
  Bass.adsr_envelope 22050 0.01 0.05 0.7%R 0.1 SAMPLE_RATE
  = Synths.adsr_envelope 22050 0.01 0.05 0.7%R 0.1 SAMPLE_RATE.
Proof.
  assert (Hc : (0 <= py_int (0.01 * SAMPLE_RATE)
                /\ 0 <= py_int (0.05 * SAMPLE_RATE)
                /\ 0 <= py_int (0.1 * SAMPLE_RATE))%Z)
    by (vm_compute; repeat split; congruence).
  assert (Hn : (py_int (0.01 * SAMPLE_RATE) + py_int (0.05 * SAMPLE_RATE)
                + py_int (0.1 * SAMPLE_RATE) <= 22050)%Z)
    by (vm_compute; congruence).
  destruct (@adsr_generators_agree 22050 0.01 0.05 0.7%R 0.1 Hc Hn) as [Hb Hs].
  exact (eq_trans Hb (eq_sym Hs)).
Defined.

(** ** Mixing several sounds into one track *)

Section Mixing.

Import Drums.
Local Open Scope R_scope.


End Mixing.



(** X14.  A start past the end of the track selects an empty slice of the
    track and cuts the sound from its end by the overshoot.  When at most
    one sample of the sound is left the call returns with the track
    unchanged; when two or more are left, adding them to the empty slice
    raises numpy's [ValueError]. *)
Theorem place_sound_past_end (track sound : list R) (p : Q) (volume : R) :
  (Z.of_nat (length track) < py_int p)%Z ->
  let over := (py_int p - Z.of_nat (length track))%Z in
  ((Z.of_nat (length sound) <= over + 1)%Z ->
     Drums.place_sound track sound p volume = Ok track) /\
  ((over + 2 <= Z.of_nat (length sound))%Z ->
     Drums.place_sound track sound p volume = Raise ValueError).
Proof.
  intros Hpast over.
  assert (Hshape :
    Drums.place_sound track sound p volume
    = (vs <- broadcast_to
               (vscale (firstn (Z.to_nat (Z.of_nat (length sound) - over)) sound)
                       volume) 0 ;;
       Ok track)).
  { unfold Drums.place_sound, slice_iadd, slice_update.
    destruct (Z.gtb_spec (py_int p + Z.of_nat (length sound))
                         (Z.of_nat (length track))) as [_ | Hle]; [| lia].
    unfold py_slice, slice_lo, slice_hi, slice_index.
    destruct (Z.ltb_spec (Z.of_nat (length track) - py_int p) 0) as [_ | H]; [| lia].
    destruct (Z.ltb_spec (py_int p) 0) as [H | _]; [lia |].
    destruct (Z.ltb_spec (Z.of_nat (length track)) 0) as [H | _]; [lia |].
    rewrite Nat.sub_0_r, skipn_O.
    replace (Nat.min (Z.to_nat (py_int p)) (length track)) with (length track) by lia.
    replace (Nat.min (Z.to_nat (Z.of_nat (length track))) (length track))
      with (length track) by lia.
    rewrite Nat.sub_diag, Nat.add_0_r.
    replace (Z.to_nat (Z.of_nat (length sound) + (Z.of_nat (length track) - py_int p)))
      with (Z.to_nat (Z.of_nat (length sound) - over)) by (unfold over; lia).
    destruct (broadcast_to _ 0) as [vs | e]; [| reflexivity].
    cbn [bind firstn combine map app].
    now rewrite firstn_all, skipn_all, app_nil_r. }
  rewrite Hshape. unfold broadcast_to.
  rewrite vscale_length, length_firstn.
  split; intros Hk.
  - destruct (Nat.eqb_spec (Nat.min (Z.to_nat (Z.of_nat (length sound) - over))
                              (length sound)) 0) as [_ | H0]; [reflexivity |].
    destruct (Nat.eqb_spec (Nat.min (Z.to_nat (Z.of_nat (length sound) - over))
                              (length sound)) 1) as [_ | H1]; [reflexivity | lia].
  - destruct (Nat.eqb_spec (Nat.min (Z.to_nat (Z.of_nat (length sound) - over))
                              (length sound)) 0) as [H0 | _]; [lia |].
    destruct (Nat.eqb_spec (Nat.min (Z.to_nat (Z.of_nat (length sound) - over))
                              (length sound)) 1) as [H1 | _]; [lia | reflexivity].
Qed.

Lemma place_sound_past_end_witness :
  Drums.place_sound [1; 2; 3]%R [10; 20; 30]%R 5 1%R = Ok [1; 2; 3]%R /\
  Drums.place_sound [1; 2; 3]%R [10; 20; 30; 40]%R 5 1%R = Raise ValueError.
Proof.
  split.
  - apply (@place_sound_past_end [1; 2; 3]%R [10; 20; 30]%R 5 1%R);
      vm_compute; congruence.
  - apply (@place_sound_past_end [1; 2; 3]%R [10; 20; 30; 40]%R 5 1%R);
      vm_compute; congruence.
Defined.

(** ** The detuned pad and the square wave (generate_synths.py) *)

Section Pad.

Local Open Scope R_scope.

Lemma saw_wave_length (f : R) (d sr : Q) :
  length (Synths.saw_wave f d sr) = Z.to_nat (py_int (d * sr)).
Proof.
  unfold Synths.saw_wave, Synths.times.
  now rewrite !length_map, np_arange_length.
Qed.

Lemma saw_wave_range (f : R) (d sr : Q) :
  Forall saw_range (Synths.saw_wave f d sr).
Proof.
  unfold Synths.saw_wave. apply Forall_map, Forall_forall. intros ti _.
  apply synths_saw_sample_range.
Qed.

Lemma add_saw (signal : list R) (j : nat) (f : R) (d sr : Q) :
  length signal = Z.to_nat (py_int (d * sr)) ->
  Forall (sum_range j) signal ->
  exists signal' : list R,
    array_iadd signal (Synths.saw_wave f d sr) = Ok signal' /\
    length signal' = length signal /\ Forall (sum_range (S j)) signal'.
Proof.
  intros Hlen Hall. unfold array_iadd, broadcast_to.
  rewrite saw_wave_length, Hlen, Nat.eqb_refl. cbn [bind].
  eexists. split; [reflexivity |]. split.
  - unfold vadd. rewrite vmap2_length, saw_wave_length. lia.
  - unfold vadd. apply (@vmap2_Forall (sum_range j) saw_range);
      [| exact Hall | apply saw_wave_range].
    intros x y [Hx Hx'] [Hy Hy']. unfold sum_range. rewrite S_INR.
    split; [lra |]. intros _. lra.
Qed.

Lemma add_three_saws (signal : list R) (j : nat) (f detune : R) (d sr : Q) :
  length signal = Z.to_nat (py_int (d * sr)) ->
  Forall (sum_range j) signal ->
  exists signal' : list R,
    for_each [- detune; 0; detune] (fun signal offset =>
      array_iadd signal (Synths.saw_wave (f + offset) d sr)) signal = Ok signal' /\
    length signal' = length signal /\ Forall (sum_range (3 + j)) signal'.
Proof.
  intros Hlen Hall. cbn [for_each].
  destruct (@add_saw signal j (f + - detune) d sr Hlen Hall) as (s1 & E1 & L1 & F1).
  rewrite E1. cbn [bind]. rewrite <- L1 in Hlen.
  destruct (@add_saw s1 (S j) (f + 0) d sr Hlen F1) as (s2 & E2 & L2 & F2).
  rewrite E2. cbn [bind]. rewrite <- L2 in Hlen.
  destruct (@add_saw s2 (S (S j)) (f + detune) d sr Hlen F2) as (s3 & E3 & L3 & F3).
  rewrite E3. cbn [bind]. exists s3. split; [reflexivity |].
  split; [congruence | exact F3].
Qed.

Lemma add_all_saws (freqs : list R) (detune : R) (d sr : Q) :
  forall (signal : list R) (j : nat),
    length signal = Z.to_nat (py_int (d * sr)) ->
    Forall (sum_range j) signal ->
    exists signal' : list R,
      for_each freqs (fun signal f =>
        for_each [- detune; 0; detune] (fun signal offset =>
          array_iadd signal (Synths.saw_wave (f + offset) d sr)) signal) signal
      = Ok signal' /\
      length signal' = length signal /\
      Forall (sum_range (3 * length freqs + j)) signal'.
Proof.
  induction freqs as [| f freqs IH]; intros signal j Hlen Hall.
  - exists signal. split; [reflexivity |]. split; [reflexivity | exact Hall].
  - cbn [for_each].
    destruct (@add_three_saws signal j f detune d sr Hlen Hall)
      as (s1 & E1 & L1 & F1).
    cbn [for_each] in E1. rewrite E1. cbn [bind].
    rewrite <- L1 in Hlen.
    destruct (IH s1 (3 + j)%nat Hlen F1) as (s2 & E2 & L2 & F2).
    exists s2. split; [exact E2 |]. split; [congruence |].
    cbn [length]. replace (3 * S (length freqs) + j)%nat
      with (3 * length freqs + (3 + j))%nat by lia. exact F2.
Qed.

End Pad.

(** X15.  [detuned_saw_pad] with a non-negative sample count
    [int(duration * sr)] never fails and returns that many samples; with
    at least one frequency every sample lies in [-1, 1), the range of a
    single sawtooth.  A negative sample count raises [ValueError]. *)
Theorem detuned_saw_pad_range (freqs : list R) (d : Q) (detune : R) (sr : Q) :
  ((0 <= py_int (d * sr))%Z ->
     exists pad : list R,
       Synths.detuned_saw_pad freqs d detune sr = Ok pad /\
       length pad = Z.to_nat (py_int (d * sr)) /\
       (freqs <> [] -> Forall saw_range pad)) /\
  ((py_int (d * sr) < 0)%Z ->
     Synths.detuned_saw_pad freqs d detune sr = Raise ValueError).
Proof.
  unfold Synths.detuned_saw_pad. split; intros Hn.
  - rewrite np_zeros_ok by exact Hn. cbn [bind].
    destruct (@add_all_saws freqs detune d sr
                (repeat 0%R (Z.to_nat (py_int (d * sr)))) 0)
      as (signal & E & L & F).
    + apply repeat_length.
    + apply Forall_forall. intros x Hx. apply repeat_spec in Hx. subst.
      unfold sum_range. cbn [INR]. split; [lra | lia].
    + rewrite E. cbn [bind]. eexists. split; [reflexivity |].
      split; [now rewrite length_map, L, repeat_length |].
      intros Hne. apply Forall_map. eapply Forall_impl; [| exact F].
      cbv beta. intros x [Hx Hx']. rewrite Nat.add_0_r in *.
      assert (Hpos : (0 < 3 * length freqs)%nat)
        by (destruct freqs; [congruence | cbn [length]; lia]).
      specialize (Hx' Hpos).
      replace (IZR (Z.of_nat (length freqs) * 3)) with (INR (3 * length freqs))
        by (rewrite INR_IZR_INZ; f_equal; lia).
      assert (HI : (0 < INR (3 * length freqs))%R) by (apply lt_0_INR; exact Hpos).
      assert (Hq : (0 < / INR (3 * length freqs))%R) by now apply Rinv_0_lt_compat.
      assert (E1 : (INR (3 * length freqs) * / INR (3 * length freqs) = 1)%R)
        by (apply Rinv_r; lra).
      unfold saw_range, Rdiv. split; nra.
  - unfold np_zeros.
    destruct (Z.ltb_spec (py_int (d * sr)) 0); [reflexivity | lia].
Qed.

Lemma detuned_saw_pad_range_witness :
  exists pad : list R,
    Synths.detuned_saw_pad [261.63; 311.13; 392.00]%R 8 3.0%R SAMPLE_RATE = Ok pad /\
    Z.of_nat (length pad) = 352800%Z /\
    Forall saw_range pad.
Proof.
  destruct (@detuned_saw_pad_range [261.63; 311.13; 392.00]%R 8 3.0%R SAMPLE_RATE)
    as [Hrun _].
  destruct Hrun as (pad & E & L & F); [vm_compute; congruence |].
  exists pad. split; [exact E |]. split.
  - rewrite L. reflexivity.
  - apply F. discriminate.
Defined.


(** ** Periods and phases of the oscillators *)

Section Periods.

Local Open Scope R_scope.



Lemma synths_times_nth (d sr : Q) (i : nat) :
  (i < Z.to_nat (py_int (d * sr)))%nat ->
  nth i (Synths.times d sr) 0 = INR i / Q2R sr.
Proof.
  intros Hi. unfold Synths.times, np_arange. rewrite map_map.
  now rewrite nth_map_seq.
Qed.




End Periods.



Section HalfPeriod.

Local Open Scope R_scope.



End HalfPeriod.



(** ** Failures of the envelope generators *)

Section EnvelopeFailures.

Local Open Scope R_scope.

Let anything (x : R) : Prop := True.

Lemma Forall_anything (l : list R) : Forall anything l.
Proof. apply Forall_forall. intros; exact I. Qed.

Lemma synths_ramp_runs (env : list R) (idx n k : Z) (a b : R) (guard : bool) :
  Z.of_nat (length env) = n -> (0 <= idx <= n)%Z ->
  (guard = true -> (0 < k)%Z) ->
  exists (env' : list R) (idx' : Z),
    (if guard then
       vals <- np_linspace a b (Z.min (idx + k) n - idx) ;;
       env0 <- slice_assign env (Some idx) (Some (Z.min (idx + k) n)) vals ;;
       Ok (env0, Z.min (idx + k) n)
     else Ok (env, idx)) = Ok (env', idx') /\
    Z.of_nat (length env') = n /\ (0 <= idx' <= n)%Z.
Proof.
  intros Hlen Hidx Hk. destruct guard.
  - specialize (Hk eq_refl).
    rewrite np_linspace_ok by lia. cbn [bind].
    destruct (@assign_phase anything env
                (linspace a b (Z.to_nat (Z.min (idx + k) n - idx)))
                idx (Z.min (idx + k) n))
      as (env' & E & L & _);
      [lia | lia | rewrite linspace_length; lia
       | apply Forall_anything | apply Forall_anything |].
    rewrite E. cbn [bind]. exists env', (Z.min (idx + k) n).
    split; [reflexivity |]. split; lia.
  - exists env, idx. auto.
Qed.

Lemma synths_fill_runs (env : list R) (idx n k : Z) (c : R) (guard : bool) :
  Z.of_nat (length env) = n -> (0 <= idx <= n)%Z ->
  (guard = true -> (0 < k)%Z) ->
  exists (env' : list R) (idx' : Z),
    (if guard then
       env0 <- slice_fill env (Some idx) (Some (Z.min (idx + k) n)) c ;;
       Ok (env0, Z.min (idx + k) n)
     else Ok (env, idx)) = Ok (env', idx') /\
    Z.of_nat (length env') = n /\ (0 <= idx' <= n)%Z.
Proof.
  intros Hlen Hidx Hk. destruct guard.
  - specialize (Hk eq_refl).
    destruct (@fill_phase anything env idx (Z.min (idx + k) n) c)
      as (env' & E & L & _); [lia | lia | apply Forall_anything | exact I |].
    rewrite E. cbn [bind]. exists env', (Z.min (idx + k) n).
    split; [reflexivity |]. split; lia.
  - exists env, idx. auto.
Qed.

Lemma synths_adsr_runs (n : Z) (attack decay : Q) (s : R) (release sr : Q) :
  (0 <= n)%Z ->
  exists env : list R,
    Synths.adsr_envelope n attack decay s release sr = Ok env /\
    Z.of_nat (length env) = n.
Proof.
  intros Hn. unfold Synths.adsr_envelope.
  set (A := py_int (attack * sr)).
  set (D := py_int (decay * sr)).
  set (Rl := py_int (release * sr)).
  rewrite np_zeros_ok by exact Hn. cbn [bind]. cbv zeta.
  assert (L0 : Z.of_nat (length (repeat 0 (Z.to_nat n))) = n)
    by (rewrite repeat_length; lia).
  destruct (@synths_ramp_runs (repeat 0 (Z.to_nat n)) 0 n A 0 1 (A >? 0)%Z)
    as (env1 & idx1 & E1 & L1 & I1); [exact L0 | lia | lia |].
  rewrite E1. cbn [bind].
  destruct (@synths_ramp_runs env1 idx1 n D 1 s ((idx1 <? n)%Z && (D >? 0)%Z))
    as (env2 & idx2 & E2 & L2 & I2);
    [exact L1 | exact I1 | intros G; apply andb_prop in G; lia |].
  rewrite E2. cbn [bind].
  destruct (@synths_fill_runs env2 idx2 n (Z.max 0 (n - A - D - Rl)) s
              ((idx2 <? n)%Z && (Z.max 0 (n - A - D - Rl) >? 0)%Z))
    as (env3 & idx3 & E3 & L3 & I3);
    [exact L2 | exact I2 | intros G; apply andb_prop in G; lia |].
  rewrite E3. cbn [bind].
  destruct (Z.ltb_spec idx3 n) as [Hrel | Hdone].
  - rewrite np_linspace_ok by lia. cbn [bind].
    destruct (@assign_tail_phase anything env3
                (linspace s 0 (Z.to_nat (n - idx3))) idx3)
      as (env4 & E4 & L4 & _);
      [lia | rewrite linspace_length; lia
       | apply Forall_anything | apply Forall_anything |].
    rewrite E4. exists env4. split; [reflexivity | lia].
  - exists env3. auto.
Qed.

Lemma np_linspace_raises (a b : R) (k : Z) :
  (k < 0)%Z -> np_linspace a b k = Raise ValueError.
Proof.
  intros H. unfold np_linspace. destruct (Z.ltb_spec k 0); [reflexivity | lia].
Qed.

(** On a note long enough for its phases, [generate_bass.adsr_envelope]
    hands each sample count to [np.linspace]; a negative one raises there,
    unless an earlier assignment has raised already. *)
Lemma bass_adsr_raises (n : Z) (attack decay : Q) (s : R) (release sr : Q) :
  (0 <= n - py_int (attack * sr) - py_int (decay * sr) - py_int (release * sr))%Z ->
  (py_int (attack * sr) < 0 \/ py_int (decay * sr) < 0
   \/ py_int (release * sr) < 0)%Z ->
  Bass.adsr_envelope n attack decay s release sr = Raise ValueError.
Proof.
  intros Hs Hneg. unfold Bass.adsr_envelope.
  set (A := py_int (attack * sr)) in *.
  set (D := py_int (decay * sr)) in *.
  set (Rl := py_int (release * sr)) in *.
  destruct (np_zeros n) as [env | []]; [| reflexivity]. cbn [bind]. cbv zeta.
  destruct (Z.ltb_spec (n - A - D - Rl) 0) as [Hlt | _]; [lia |].
  destruct (Z_lt_le_dec A 0) as [HA | HA];
    [now rewrite (np_linspace_raises _ _ HA) |].
  rewrite (np_linspace_ok _ _ HA). cbn [bind].
  destruct (slice_assign env _ _ _) as [env1 | []]; [| reflexivity]. cbn [bind].
  destruct (Z_lt_le_dec D 0) as [HD | HD];
    [now rewrite (np_linspace_raises _ _ HD) |].
  rewrite (np_linspace_ok _ _ HD). cbn [bind].
  destruct (slice_assign env1 _ _ _) as [env2 | []]; [| reflexivity]. cbn [bind].
  destruct (slice_fill env2 _ _ _) as [env3 | []]; [| reflexivity]. cbn [bind].
  assert (HR : (Rl < 0)%Z) by lia.
  now rewrite (np_linspace_raises _ _ HR).
Qed.

End EnvelopeFailures.

(** X18.  [adsr_envelope] of [generate_synths.py] never fails on a
    non-negative sample count, whatever the attack, decay and release
    times (negative ones included) and the sustain level, and returns
    exactly that many samples.  [adsr_envelope] of [generate_bass.py]
    raises [ValueError] when the phases fit the buffer and one of the
    attack, decay and release sample counts is negative.  Both raise on a
    negative sample count. *)
Theorem adsr_failures (n : Z) (attack decay : Q) (s : R) (release sr : Q) :
  ((0 <= n)%Z ->
     exists env : list R,
       Synths.adsr_envelope n attack decay s release sr = Ok env /\
       Z.of_nat (length env) = n) /\
  ((0 <= n - py_int (attack * sr) - py_int (decay * sr)
          - py_int (release * sr))%Z ->
   (py_int (attack * sr) < 0 \/ py_int (decay * sr) < 0
    \/ py_int (release * sr) < 0)%Z ->
     Bass.adsr_envelope n attack decay s release sr = Raise ValueError) /\
  ((n < 0)%Z ->
     Synths.adsr_envelope n attack decay s release sr = Raise ValueError /\
     Bass.adsr_envelope n attack decay s release sr = Raise ValueError).
Proof.
  split; [apply synths_adsr_runs |]. split; [apply bass_adsr_raises |].
  intros Hn. unfold Synths.adsr_envelope, Bass.adsr_envelope, np_zeros.
  destruct (Z.ltb_spec n 0); [| lia]. split; reflexivity.
Qed.

Lemma adsr_failures_witness :
  (exists env : list R,
     Synths.adsr_envelope 100 (-0.01) 0.1 0.7%R 0.1 SAMPLE_RATE = Ok env /\
     Z.of_nat (length env) = 100%Z) /\
  Bass.adsr_envelope 22050 (-0.01) 0.05 0.7%R 0.1 SAMPLE_RATE = Raise ValueError.
Proof.
  destruct (@adsr_failures 100 (-0.01) 0.1 0.7%R 0.1 SAMPLE_RATE) as (Hrun & _).
  destruct (@adsr_failures 22050 (-0.01) 0.05 0.7%R 0.1 SAMPLE_RATE)
    as (_ & Hfail & _).
  split.
  - apply Hrun. lia.
  - apply Hfail.
    + vm_compute; congruence.
    + left. vm_compute. reflexivity.
Defined.


(** ** The bass note (generate_bass.py) *)

Section BassNote.

Local Open Scope R_scope.

Variable butter_lfilter : Z -> R -> list R -> result (list R).

Lemma normalized_cutoff_range (cutoff : R) (sample_rate : Q) :
  0 < cutoff -> (0 < sample_rate)%Q ->
  0 < Rmin (cutoff / (Q2R sample_rate / 2.0)) 0.99 <= 0.99.
Proof.
  intros Hc Hsr.
  assert (Hs : 0 < Q2R sample_rate).
  { rewrite <- RMicromega.Q2R_0. now apply Qlt_Rlt. }
  assert (Hn : 0 < cutoff / (Q2R sample_rate / 2.0)).
  { apply Rmult_lt_0_compat; [exact Hc |]. apply Rinv_0_lt_compat. lra. }
  unfold Rmin. destruct (Rle_dec _ 0.99); lra.
Qed.

Lemma low_pass_filter_runs (signal : list R) (cutoff : R) (sample_rate : Q)
      (order : Z) :
  scipy_contract butter_lfilter -> 0 < cutoff -> (0 < sample_rate)%Q ->
  exists out : list R,
    Bass.low_pass_filter butter_lfilter signal cutoff sample_rate order = Ok out /\
    length out = length signal.
Proof.
  intros Hscipy Hc Hsr. unfold Bass.low_pass_filter. apply Hscipy.
  pose proof (normalized_cutoff_range Hc Hsr). lra.
Qed.

Lemma array_mul_same_length (a b : list R) :
  length a = length b ->
  array_mul a b = Ok (vmul a b) /\ length (vmul a b) = length a.
Proof.
  intros H. unfold array_mul. rewrite H, Nat.eqb_refl. split; [reflexivity |].
  unfold vmul. rewrite vmap2_length. lia.
Qed.

Lemma bass_adsr_default_runs (n : Z) :
  (0 <= n)%Z ->
  exists env : list R,
    Bass.adsr_default n = Ok env /\ Z.of_nat (length env) = n.
Proof.
  intros Hn.
  assert (H1 : (0 <= 0.01)%Q) by (vm_compute; congruence).
  assert (H2 : (0 <= 0.05)%Q) by (vm_compute; congruence).
  assert (H3 : (0 <= 0.1)%Q) by (vm_compute; congruence).
  assert (Hs : 0 <= 0.7 <= 1) by lra.
  destruct (@bass_adsr_bounded 0.7 Hs n 0.01 0.05 0.1 Hn H1 H2 H3)
    as (env & E & L & _).
  exists env. split; [exact E | exact L].
Qed.

(** The steps of [make_bass_note] up to the normalisation. *)
Lemma bass_note_before_normalize (freq : R) (duration : Q) (cutoff volume : R) :
  scipy_contract butter_lfilter -> 0 < cutoff ->
  (0 <= py_int (SAMPLE_RATE * duration))%Z ->
  exists wave : list R,
    Bass.make_bass_note butter_lfilter freq duration cutoff volume
    = Bass.normalize wave volume /\
    length wave = Z.to_nat (py_int (SAMPLE_RATE * duration)).
Proof.
  intros Hscipy Hc Hn. unfold Bass.make_bass_note, Bass.sawtooth_wave.
  unfold np_linspace_open.
  destruct (Z.ltb_spec (py_int (SAMPLE_RATE * duration)) 0); [lia |].
  cbn [bind].
  set (t := linspace_open 0 (Q2R duration) _).
  assert (Ht : length t = Z.to_nat (py_int (SAMPLE_RATE * duration)))
    by apply linspace_open_length.
  set (mixed := vadd _ _).
  assert (Hmixed : length mixed = length t).
  { unfold mixed, vadd. rewrite vmap2_length, vscale_length, !length_map. lia. }
  destruct (@low_pass_filter_runs mixed cutoff SAMPLE_RATE 4 Hscipy Hc)
    as (filtered & Ef & Lf); [reflexivity |].
  rewrite Ef. cbn [bind].
  destruct (@bass_adsr_default_runs (Z.of_nat (length filtered)))
    as (env & Ee & Le); [lia |].
  rewrite Ee. cbn [bind].
  destruct (@array_mul_same_length filtered env) as [Em Lm]; [lia |].
  rewrite Em. cbn [bind]. eexists. split; [reflexivity |]. lia.
Qed.

End BassNote.

(** X19.  Both low-pass filters clamp the normalised cutoff: for a
    positive cutoff and sample rate the critical frequency handed to scipy
    lies in (0, 0.99], so, scipy accepting every critical frequency
    strictly between 0 and 1 and keeping the length, [low_pass_filter]
    (generate_bass.py) and [lowpass_filter] (generate_synths.py) never fail
    and return as many samples as they are given. *)
Theorem low_pass_filter_never_fails
        (butter_lfilter : Z -> R -> list R -> result (list R))
        (signal : list R) (cutoff : R) (sample_rate : Q) (order : Z) :
  scipy_contract butter_lfilter -> (0 < cutoff)%R -> (0 < sample_rate)%Q ->
  (0 < Rmin (cutoff / (Q2R sample_rate / 2.0)) 0.99 <= 0.99)%R /\
  (exists out : list R,
     Bass.low_pass_filter butter_lfilter signal cutoff sample_rate order = Ok out /\
     length out = length signal) /\
  (exists out : list R,
     Synths.lowpass_filter butter_lfilter signal cutoff sample_rate order = Ok out /\
     length out = length signal).
Proof.
  intros Hscipy Hc Hsr.
  pose proof (@normalized_cutoff_range cutoff sample_rate Hc Hsr) as Hrange.
  split; [exact Hrange |]. split.
  - now apply low_pass_filter_runs.
  - unfold Synths.lowpass_filter. apply Hscipy.
    replace (0.5 * Q2R sample_rate)%R with (Q2R sample_rate / 2.0)%R by lra.
    lra.
Qed.

Lemma low_pass_filter_never_fails_witness :
  exists out : list R,
    Bass.low_pass_filter (fun _ _ signal => Ok signal) [1; 2]%R 600 SAMPLE_RATE 4
    = Ok out /\ length out = 2%nat.
Proof.
  refine (proj1 (proj2 (@low_pass_filter_never_fails (fun _ _ signal => Ok signal)
                          [1; 2]%R 600%R SAMPLE_RATE 4 _ _ _))).
  - intros order wn signal _. exists signal. split; reflexivity.
  - lra.
  - reflexivity.
Defined.

(** X20.  [make_bass_note], scipy keeping its promise, for a positive
    cutoff and volume: a duration of at least one sample gives
    [int(44100 * duration)] samples, every one strictly inside
    (-volume, volume); a duration shorter than one sample raises
    [ValueError] (the peak of an empty buffer), and so does a negative
    sample count. *)
Theorem make_bass_note_size_and_ceiling
        (butter_lfilter : Z -> R -> list R -> result (list R))
        (freq : R) (duration : Q) (cutoff volume : R) :
  scipy_contract butter_lfilter -> (0 < cutoff)%R -> (0 < volume)%R ->
  ((1 <= py_int (SAMPLE_RATE * duration))%Z ->
     exists note : list R,
       Bass.make_bass_note butter_lfilter freq duration cutoff volume = Ok note /\
       length note = Z.to_nat (py_int (SAMPLE_RATE * duration)) /\
       Forall (fun y => - volume < y < volume)%R note) /\
  ((py_int (SAMPLE_RATE * duration) <= 0)%Z ->
     Bass.make_bass_note butter_lfilter freq duration cutoff volume
     = Raise ValueError).
Proof.
  intros Hscipy Hc Hv. split; intros Hn.
  - destruct (@bass_note_before_normalize butter_lfilter freq duration cutoff
                volume Hscipy Hc ltac:(lia)) as (wave & E & L).
    assert (Hne : wave <> []) by (intros ->; cbn [length] in L; lia).
    destruct (@bass_normalize_spec wave volume Hne Hv) as (out & Eo & Lo & Fo).
    exists out. rewrite E. split; [exact Eo |]. split; [lia | exact Fo].
  - destruct (Z_lt_le_dec (py_int (SAMPLE_RATE * duration)) 0) as [Hneg | H0].
    + unfold Bass.make_bass_note, Bass.sawtooth_wave, np_linspace_open.
      destruct (Z.ltb_spec (py_int (SAMPLE_RATE * duration)) 0); [| lia].
      reflexivity.
    + destruct (@bass_note_before_normalize butter_lfilter freq duration cutoff
                  volume Hscipy Hc H0) as (wave & E & L).
      rewrite E. destruct wave as [| x wave]; [reflexivity |].
      cbn [length] in L. lia.
Qed.

Lemma make_bass_note_size_and_ceiling_witness :
  exists note : list R,
    Bass.make_bass_note (fun _ _ signal => Ok signal) 65.41 0.5 500 0.8 = Ok note /\
    Z.of_nat (length note) = 22050%Z.
Proof.
  destruct (@make_bass_note_size_and_ceiling (fun _ _ signal => Ok signal)
              65.41%R 0.5 500%R 0.8%R) as [Hrun _].
  - intros order wn signal _. exists signal. split; reflexivity.
  - lra.
  - lra.
  - destruct Hrun as (note & E & L & _); [vm_compute; congruence |].
    exists note. split; [exact E |]. rewrite L. reflexivity.
Defined.

(** ** The escaped description (submit_synths.py) *)

Section Escaping.

Import SubmitSynths.

Lemma escaped_cons (c : Ascii.ascii) (s : str) :
  description_escaped (c :: s)
  = if Ascii.eqb c double_quote
    then backslash :: double_quote :: description_escaped s
    else c :: description_escaped s.
Proof.
  unfold description_escaped, str_replace. cbn [flat_map].
  now destruct (Ascii.eqb c double_quote).
Qed.

End Escaping.

(** X21.  In the escaped description every double quote stands right after
    a backslash, so none of them is the first character and none closes
    the GraphQL string early on its own; a description without double
    quotes is left as it is. *)
Theorem description_escaped_quotes (description : SubmitSynths.str) :
  (forall i : nat,
      nth_error (SubmitSynths.description_escaped description) i
      = Some SubmitSynths.double_quote ->
      exists j : nat,
        i = S j /\
        nth_error (SubmitSynths.description_escaped description) j
        = Some SubmitSynths.backslash) /\
  ((forall c : Ascii.ascii, In c description ->
      Ascii.eqb c SubmitSynths.double_quote = false) ->
   SubmitSynths.description_escaped description = description).
Proof.
  split.
  - induction description as [| c s IH]; intros i Hi.
    + destruct i; discriminate.
    + rewrite escaped_cons in *.
      destruct (Ascii.eqb c SubmitSynths.double_quote) eqn:Ec.
      * destruct i as [| [| i]].
        -- discriminate.
        -- exists 0%nat. split; reflexivity.
        -- cbn [nth_error] in Hi. destruct (IH i Hi) as (j & -> & Hj).
           exists (S (S j)). split; [reflexivity | exact Hj].
      * destruct i as [| i].
        -- cbn [nth_error] in Hi. injection Hi as ->.
           rewrite Ascii.eqb_refl in Ec. discriminate.
        -- cbn [nth_error] in Hi. destruct (IH i Hi) as (j & -> & Hj).
           exists (S j). split; [reflexivity | exact Hj].
  - induction description as [| c s IH]; intros Hno; [reflexivity |].
    rewrite escaped_cons, (Hno c (or_introl eq_refl)).
    f_equal. apply IH. intros c' Hc'. apply Hno. now right.
Qed.

Example description_escaped_example :
  SubmitSynths.description_escaped
    [Ascii.ascii_of_nat 97; SubmitSynths.double_quote; Ascii.ascii_of_nat 98]
  = [Ascii.ascii_of_nat 97; SubmitSynths.backslash; SubmitSynths.double_quote;
     Ascii.ascii_of_nat 98].
Proof. reflexivity. Qed.

